(** * SPIFFE SDK: credential lifecycle, transport routing, inbound validation

    A shallow embedding of [spiffe-client-sdk.go] (package [spiffesdk]) and
    the properties of it that the design document states.

    Conventions of the embedding.
    - A Go function returning [(T, error)] returns [Result T]; one returning
      only [error] returns [option error] ([None] is [nil]).
    - Code that performs I/O or touches objects shared through pointers runs
      in the monad [M], a state monad over [World] in which [None] is a
      run-time panic.
    - [*http.Request] values are locations of a heap of objects, because the
      code passes them to callees it does not control.  The SDK object itself
      is passed as a value and returned updated.
    - [sync.RWMutex] sections are sequential code here: the embedding runs one
      goroutine at a time, so [Lock]/[Unlock] pairs are the identity.
    - Standard-library and go-spiffe functions whose result the SDK only
      passes along are members of the class [GoRuntime]; the theorems of
      section [Properties] hold for all of its instances. *)

From Stdlib Require Import ZArith String List Bool Ascii Lia.
From stdpp Require Import base list.
Import ListNotations.

Local Open Scope list_scope.
Local Open Scope string_scope.

(** ** Errors and results *)

Definition Time := Z.
Definition Duration := Z.

(** [error] keeps the format string and the arguments of [fmt.Errorf]
    instead of the rendered text. *)
Inductive error : Type :=
| libError (msg : string)
| Errorf (format : string) (args : list fmtArg)
with fmtArg : Type :=
| argInt (n : Z)
| argString (s : string)
| argError (e : error)
| argTime (t : Time).

Inductive Result (A : Type) : Type :=
| Ok (v : A)
| Err (e : error).
Arguments Ok {A} v.
Arguments Err {A} e.

(** ** package time *)

(** A [time.Time] is the number of nanoseconds since the zero Time
    (January 1, year 1, 00:00:00 UTC); a [time.Duration] is an [int64]
    count of nanoseconds. *)
Definition zeroTime : Time := 0%Z.
Definition minDuration : Duration := (- 2 ^ 63)%Z.
Definition maxDuration : Duration := (2 ^ 63 - 1)%Z.

(** [t.Sub(u)]: the difference, saturated to the range of [Duration]. *)
Definition Time_Sub (t u : Time) : Duration :=
  let d := (t - u)%Z in
  if (d <? minDuration)%Z then minDuration
  else if (maxDuration <? d)%Z then maxDuration
  else d.

(** [time.Until(t)] is [t.Sub(time.Now())]; [now] is the clock reading. *)
Definition time_Until (t now : Time) : Duration := Time_Sub t now.

(** ** package net/http: data *)

(** Locations of heap objects. *)
Abbreviation loc := nat (only parsing).

Definition StatusOK : Z := 200%Z.
Definition StatusCreated : Z := 201%Z.
Definition StatusUnauthorized : Z := 401%Z.

(** [http.Header]: keys in insertion order. *)
Definition Header := list (string * list string).

Definition Header_Set (h : Header) (key value : string) : Header :=
  (key, [value]) :: filter (fun kv => negb (String.eqb (fst kv) key)) h.

(** [context.Context] as far as the SDK uses it: the chain of values
    attached with [context.WithValue], innermost first.  The empty chain is
    [context.Background()]. *)
Definition Context := list (string * string).
Definition context_Background : Context := [].
Definition context_WithValue (parent : Context) (key val : string) : Context :=
  (key, val) :: parent.
Fixpoint Context_Value (c : Context) (key : string) : option string :=
  match c with
  | [] => None
  | (k, v) :: parent => if String.eqb k key then Some v else Context_Value parent key
  end.

Module Certificate.
Record t := mk { Raw : string }.
End Certificate.

Module ConnectionState.
Record t := mk { PeerCertificates : list Certificate.t }.
End ConnectionState.

Module URL.
Record t := mk { Scheme : string; Host : string; Path : string; RawQuery : string }.
End URL.

(** The fields of [http.Request] that the SDK reads, and the two
    reference-typed ones ([Header], [Body]) by which a copy can share state
    with its original.  [URL], [Header] and [Body] are locations; [None] is
    [nil]. *)
Module Request.
Record t := mk {
  Method : string;
  URL : option loc;
  Header : option loc;
  Body : option loc;
  Host : string;
  TLS : option ConnectionState.t;
  ctx : Context }.
Definition Context (r : t) : Context := ctx r.
End Request.

Module Response.
Record t := mk { StatusCode : Z; Body : string }.
End Response.

Inductive Obj : Type :=
| ORequest (r : Request.t)
| OURL (u : URL.t)
| OHeader (h : Header)
| OBody (unread : string).

(** What [http.Client.Do] puts on the wire for a request built with
    [http.NewRequest]. *)
Module Outbound.
Record t := mk {
  Method : string;
  URL : URL.t;
  Header : Header;
  Body : option string }.
Definition setHeader (r : t) (key value : string) : t :=
  mk (Method r) (URL r) (Header_Set (Header r) key value) (Body r).
End Outbound.

(** ** go-spiffe *)

Inductive X509Source : Type := x509Source (id : nat).
(** [tlsconfig.MTLSClientConfig(svid, bundle, tlsconfig.AuthorizeAny())] *)
Inductive TLSConfig : Type :=
| MTLSClientConfig (svid bundle : option X509Source).

(** ** The world *)

Definition ResponseWriter := nat.

Record World := mkWorld {
  heap : list Obj;
  (** the issuance service and the path to it: the answer to a request,
      given the requests made before it *)
  network : list Outbound.t -> Outbound.t -> Result Response.t;
  (** requests handed to [http.Client.Do], oldest first *)
  sent : list Outbound.t;
  (** the SPIRE agent: outcome of the n-th [workloadapi.NewX509Source],
      given the socket address *)
  agent : nat -> string -> Result X509Source;
  agentCalls : nat;
  (** lines printed with [fmt.Printf]: format and arguments *)
  stdout : list (string * list fmtArg);
  (** replies written with [http.Error]: writer, message, status code *)
  replies : list (ResponseWriter * string * Z) }.

Definition set_heap (h : list Obj) (W : World) : World :=
  mkWorld h (network W) (sent W) (agent W) (agentCalls W) (stdout W) (replies W).
Definition set_sent (s : list Outbound.t) (W : World) : World :=
  mkWorld (heap W) (network W) s (agent W) (agentCalls W) (stdout W) (replies W).
Definition set_agentCalls (n : nat) (W : World) : World :=
  mkWorld (heap W) (network W) (sent W) (agent W) n (stdout W) (replies W).
Definition set_stdout (o : list (string * list fmtArg)) (W : World) : World :=
  mkWorld (heap W) (network W) (sent W) (agent W) (agentCalls W) o (replies W).
Definition set_replies (r : list (ResponseWriter * string * Z)) (W : World) : World :=
  mkWorld (heap W) (network W) (sent W) (agent W) (agentCalls W) (stdout W) r.

(** ** The monad *)

Definition M (A : Type) : Type := World -> option (A * World).

Definition ret {A} (a : A) : M A := fun W => Some (a, W).
Definition bind {A B} (m : M A) (k : A -> M B) : M B :=
  fun W => match m W with
           | Some (a, W') => k a W'
           | None => None
           end.
Definition panic {A} : M A := fun _ => None.

Notation "x <- c ;; k" := (bind c (fun x => k))
  (at level 100, c at next level, right associativity).
Notation "c ;;; k" := (bind c (fun _ => k))
  (at level 100, right associativity).

(** *** Heap access *)

Definition alloc (o : Obj) : M loc :=
  fun W => Some (length (heap W), set_heap (heap W ++ [o])%list W).

(** [*p] for [p *http.Request]; a location that holds no request panics,
    as a nil dereference does. *)
Definition loadRequest (p : loc) : M Request.t :=
  fun W => match heap W !! p with
           | Some (ORequest r) => Some (r, W)
           | _ => None
           end.
Definition loadURL (p : option loc) : M URL.t :=
  fun W => match p with
           | Some l => match heap W !! l with
                       | Some (OURL u) => Some (u, W)
                       | _ => None
                       end
           | None => None
           end.
Definition loadHeader (l : loc) : M Header :=
  fun W => match heap W !! l with
           | Some (OHeader h) => Some (h, W)
           | _ => None
           end.

(** [*l = o], for a transport that writes to the request it is given *)
Definition store (l : loc) (o : Obj) : M unit :=
  fun W => Some (tt, set_heap (<[l := o]> (heap W)) W).

(** *** Effects the SDK performs directly *)

(** [fmt.Printf(format, args...)] *)
Definition fmt_Printf (format : string) (args : list fmtArg) : M unit :=
  fun W => Some (tt, set_stdout (stdout W ++ [(format, args)])%list W).

(** [http.Error(w, msg, code)] *)
Definition http_Error (w : ResponseWriter) (msg : string) (code : Z) : M unit :=
  fun W => Some (tt, set_replies (replies W ++ [(w, msg, code)])%list W).

(** [http.Client]: only its timeout is configured; requests go to the
    network. *)
Module Client.
Record t := mk { Timeout : Duration }.
Definition Do (c : t) (req : Outbound.t) : M (Result Response.t) :=
  fun W => Some (network W (sent W) req, set_sent (sent W ++ [req])%list W).
End Client.

(** ** Interfaces *)

(** [http.RoundTripper] and [http.Handler]. *)
Definition RoundTripper := loc -> M (Result Response.t).
Definition Handler := ResponseWriter -> loc -> M unit.

(** *** Model of [net/http]'s request copies *)

(** [r.WithContext(ctx)]: a shallow copy of [*r] with its context replaced;
    the copy shares [URL], [Header] and [Body] with [r]. *)
Definition Request_WithContext (p : loc) (c : Context) : M loc :=
  r <- loadRequest p ;;
  alloc (ORequest (Request.mk (Request.Method r) (Request.URL r) (Request.Header r)
                              (Request.Body r) (Request.Host r) (Request.TLS r) c)).

Definition cloneURL (u : option loc) : M (option loc) :=
  match u with
  | None => ret None
  | Some l => v <- loadURL (Some l) ;; l' <- alloc (OURL v) ;; ret (Some l')
  end.

Definition Header_Clone (h : option loc) : M (option loc) :=
  match h with
  | None => ret None
  | Some l => v <- loadHeader l ;; l' <- alloc (OHeader v) ;; ret (Some l')
  end.

(** [r.Clone(ctx)]: a deep copy of [*r] with its context replaced: [URL]
    and [Header] are copied into fresh objects, [Body] is shared.  (The
    copies are allocated before the request that points to them.) *)
Definition Request_Clone (p : loc) (c : Context) : M loc :=
  r <- loadRequest p ;;
  u <- cloneURL (Request.URL r) ;;
  h <- Header_Clone (Request.Header r) ;;
  alloc (ORequest (Request.mk (Request.Method r) u h
                              (Request.Body r) (Request.Host r) (Request.TLS r) c)).

(** ** Types of the SDK *)

Module Config.
Record t := mk {
  ServiceName : string;
  SPIFFEID : string;
  ServiceType : string;
  Namespace : string;
  ServiceAccount : string;
  (** [map[string]string], as the sequence in which [range] visits it *)
  PodLabels : list (string * string);
  HeadlessAPIURL : string;
  SocketPath : string;
  TrustDomain : string;
  RenewalThreshold : Duration;
  CheckInterval : Duration }.
End Config.

Module SVIDCache.
Record t := mk {
  SVID : string;
  PrivateKey : string;
  Bundle : string;
  ExpiresAt : Time;
  IssuedAt : Time }.
(** [&SVIDCache{}] *)
Definition zero : t := mk "" "" "" zeroTime zeroTime.
End SVIDCache.

Module HeadlessAPI.
Record t := mk { BaseURL : string; HTTPClient : Client.t }.
End HeadlessAPI.

Module SpiffeSDK.
Record t := mk {
  config : Config.t;
  headlessAPI : HeadlessAPI.t;
  workloadAPI : option X509Source;
  currentSVID : SVIDCache.t;
  tlsConfig : option TLSConfig }.
Definition set_workloadAPI (s : t) (v : option X509Source) : t :=
  mk (config s) (headlessAPI s) v (currentSVID s) (tlsConfig s).
Definition set_currentSVID (s : t) (v : SVIDCache.t) : t :=
  mk (config s) (headlessAPI s) (workloadAPI s) v (tlsConfig s).
Definition set_tlsConfig (s : t) (v : option TLSConfig) : t :=
  mk (config s) (headlessAPI s) (workloadAPI s) (currentSVID s) v.
End SpiffeSDK.

Module ValidationResult.
Record t := mk {
  Valid : bool;
  SPIFFEID : string;
  Subject : string;
  Issuer : string;
  NotBefore : string;
  NotAfter : string }.
End ValidationResult.

Module SVIDResponse.
Record t := mk {
  ID : string;
  WorkloadID : string;
  SPIFFEID : string;
  X509SVID : string;
  PrivateKey : string;
  Bundle : string;
  ExpiresAt : Time;
  IssuedAt : Time }.
End SVIDResponse.

(** The anonymous struct that [GetOrRefreshSVID] decodes the lookup into. *)
Module Workload.
Record t := mk { ID : string; SPIFFEID : string }.
End Workload.
Module WorkloadResp.
Record t := mk { Workloads : list Workload.t }.
End WorkloadResp.

(** The two JSON payloads the SDK builds. *)
Module RegisterPayload.
Record t := mk { spiffe_id : string; type : string; selectors : list string }.
End RegisterPayload.
Module VerifyPayload.
Record t := mk { certificate : string }.
End VerifyPayload.

(** [smartTransport] switches between mTLS and regular HTTP based on
    target.  [sdk] stands for the state of the SDK that the pointer field
    refers to when the method runs. *)
Module smartTransport.
Record t := mk {
  sdk : SpiffeSDK.t;
  internalDomains : list string;
  mtlsTransport : RoundTripper;
  regularTransport : RoundTripper }.
End smartTransport.

(** [spiffeMTLSTransport]; a [nil] inner transport is [None]. *)
Module spiffeMTLSTransport.
Record t := mk {
  sdk : SpiffeSDK.t;
  transport : option RoundTripper }.
End spiffeMTLSTransport.

(** ** Library functions taken as parameters *)

Class GoRuntime := {
  (** [url.Parse], as used by [http.NewRequest] *)
  url_Parse : string -> Result URL.t;
  (** [json.Marshal] at the two payload types *)
  json_Marshal_register : RegisterPayload.t -> Result string;
  json_Marshal_verify : VerifyPayload.t -> Result string;
  (** [json.NewDecoder(body).Decode(&v)] at the three response types *)
  json_Decode_WorkloadResp : string -> Result WorkloadResp.t;
  json_Decode_SVIDResponse : string -> Result SVIDResponse.t;
  json_Decode_ValidationResult : string -> Result ValidationResult.t;
  (** [pem.EncodeToMemory] of a block with the given type and bytes *)
  pem_EncodeToMemory : string -> string -> string;
  (** [&http.Transport{TLSClientConfig: c}] and [http.DefaultTransport] *)
  http_Transport : option TLSConfig -> RoundTripper;
  http_DefaultTransport : RoundTripper }.

Section Embedding.
Context {rt : GoRuntime}.

(** [http.NewRequest(method, url, body)] with a valid method: fails exactly
    when the URL does not parse. *)
Definition http_NewRequest (method url : string) (body : option string)
  : Result Outbound.t :=
  match url_Parse url with
  | Err e => Err e
  | Ok u => Ok (Outbound.mk method u [] body)
  end.

(** [io.ReadAll(resp.Body)], its error dropped as the callers do. *)
Definition io_ReadAll (body : string) : string := body.

Definition nl : string := String (ascii_of_nat 10) EmptyString.

(** ** HeadlessAPI methods *)

Definition RegisterAndIssueSVID (api : HeadlessAPI.t) (payload : RegisterPayload.t)
  : M (option error) :=
  match json_Marshal_register payload with
  | Err err => ret (Some (Errorf "failed to marshal payload: %w" [argError err]))
  | Ok jsonData =>
    match http_NewRequest "POST"
            (HeadlessAPI.BaseURL api ++ "/spiresvc/api/v1/workloads/register-and-issue")
            (Some jsonData) with
    | Err err => ret (Some (Errorf "failed to create request: %w" [argError err]))
    | Ok req =>
      let req := Outbound.setHeader req "Content-Type" "application/json" in
      r <- Client.Do (HeadlessAPI.HTTPClient api) req ;;
      match r with
      | Err err => ret (Some (Errorf "failed to send request: %w" [argError err]))
      | Ok resp =>
        if negb (Response.StatusCode resp =? StatusCreated)%Z then
          let body := io_ReadAll (Response.Body resp) in
          ret (Some (Errorf "registration failed with status %d: %s"
                            [argInt (Response.StatusCode resp); argString body]))
        else ret None
      end
    end
  end.

Definition GetOrRefreshSVID (api : HeadlessAPI.t) (spiffeID : string)
  : M (Result SVIDResponse.t) :=
  (* Try to get existing SVID first by listing workloads *)
  match http_NewRequest "GET"
          (HeadlessAPI.BaseURL api ++ "/spiresvc/api/v1/workloads?spiffe_id=" ++ spiffeID)
          None with
  | Err err => ret (Err (Errorf "failed to create request: %w" [argError err]))
  | Ok req =>
    r <- Client.Do (HeadlessAPI.HTTPClient api) req ;;
    match r with
    | Err err => ret (Err (Errorf "failed to send request: %w" [argError err]))
    | Ok resp =>
      if negb (Response.StatusCode resp =? StatusOK)%Z then
        let body := io_ReadAll (Response.Body resp) in
        ret (Err (Errorf "failed to get workload with status %d: %s"
                         [argInt (Response.StatusCode resp); argString body]))
      else
        match json_Decode_WorkloadResp (Response.Body resp) with
        | Err err => ret (Err (Errorf "failed to decode workload response: %w" [argError err]))
        | Ok workloadResp =>
          match WorkloadResp.Workloads workloadResp with
          | [] => ret (Err (Errorf "workload not found for SPIFFE ID: %s" [argString spiffeID]))
          | first :: _ =>
            let workloadID := Workload.ID first in
            (* Issue new SVID *)
            match http_NewRequest "POST"
                    (HeadlessAPI.BaseURL api ++ "/spiresvc/api/v1/workloads/"
                       ++ workloadID ++ "/svid")
                    None with
            | Err err => ret (Err (Errorf "failed to create SVID request: %w" [argError err]))
            | Ok svidReq =>
              r' <- Client.Do (HeadlessAPI.HTTPClient api) svidReq ;;
              match r' with
              | Err err => ret (Err (Errorf "failed to send SVID request: %w" [argError err]))
              | Ok svidResp =>
                if negb (Response.StatusCode svidResp =? StatusCreated)%Z then
                  let body := io_ReadAll (Response.Body svidResp) in
                  ret (Err (Errorf "SVID issuance failed with status %d: %s"
                                   [argInt (Response.StatusCode svidResp); argString body]))
                else
                  match json_Decode_SVIDResponse (Response.Body svidResp) with
                  | Err err =>
                    ret (Err (Errorf "failed to decode SVID response: %w" [argError err]))
                  | Ok svid => ret (Ok svid)
                  end
              end
            end
          end
        end
    end
  end.

Definition VerifyCertificate (api : HeadlessAPI.t) (payload : VerifyPayload.t)
  : M (Result ValidationResult.t) :=
  match json_Marshal_verify payload with
  | Err err => ret (Err (Errorf "failed to marshal payload: %w" [argError err]))
  | Ok jsonData =>
    match http_NewRequest "POST"
            (HeadlessAPI.BaseURL api ++ "/api/v1/verify/certificate")
            (Some jsonData) with
    | Err err => ret (Err (Errorf "failed to create request: %w" [argError err]))
    | Ok req =>
      let req := Outbound.setHeader req "Content-Type" "application/json" in
      r <- Client.Do (HeadlessAPI.HTTPClient api) req ;;
      match r with
      | Err err => ret (Err (Errorf "failed to send request: %w" [argError err]))
      | Ok resp =>
        match json_Decode_ValidationResult (Response.Body resp) with
        | Err err =>
          ret (Err (Errorf "failed to decode verification response: %w" [argError err]))
        | Ok result => ret (Ok result)
        end
      end
    end
  end.

(** ** SpiffeSDK: construction and credential lifecycle *)

(** [workloadapi.NewX509Source(ctx, WithClientOptions(WithAddr(addr)))] *)
Definition workloadapi_NewX509Source (addr : string) : M (Result X509Source) :=
  fun W => Some (agent W (agentCalls W) addr, set_agentCalls (S (agentCalls W)) W).

Definition initWorkloadAPI (s : SpiffeSDK.t) : M (option error * SpiffeSDK.t) :=
  r <- workloadapi_NewX509Source ("unix://" ++ Config.SocketPath (SpiffeSDK.config s)) ;;
  match r with
  | Err err => ret (Some err, s)
  | Ok source => ret (None, SpiffeSDK.set_workloadAPI s (Some source))
  end.

Definition setupTLSConfig (s : SpiffeSDK.t) : option error * SpiffeSDK.t :=
  (None, SpiffeSDK.set_tlsConfig s
           (Some (MTLSClientConfig (SpiffeSDK.workloadAPI s) (SpiffeSDK.workloadAPI s)))).

Definition NewSpiffeSDK (config : Config.t) : M (Result SpiffeSDK.t) :=
  let sdk := SpiffeSDK.mk config
               (HeadlessAPI.mk (Config.HeadlessAPIURL config)
                               (Client.mk (10 * 1000000000)%Z))
               None SVIDCache.zero None in
  (* optional: the workload API may not be available yet *)
  r <- initWorkloadAPI sdk ;;
  ret (Ok (snd r)).

Definition registerWithHeadlessAPI (s : SpiffeSDK.t) : M (option error) :=
  let c := SpiffeSDK.config s in
  let selectors :=
    ["k8s:ns:" ++ Config.Namespace c; "k8s:sa:" ++ Config.ServiceAccount c] in
  (* Add pod labels as selectors *)
  let selectors :=
    app selectors (map (fun kv => "k8s:pod-label:" ++ fst kv ++ ":" ++ snd kv)
                       (Config.PodLabels c)) in
  let payload := RegisterPayload.mk (Config.SPIFFEID c) (Config.ServiceType c) selectors in
  RegisterAndIssueSVID (SpiffeSDK.headlessAPI s) payload.

Definition refreshSVID (s : SpiffeSDK.t) : M (option error * SpiffeSDK.t) :=
  r <- GetOrRefreshSVID (SpiffeSDK.headlessAPI s) (Config.SPIFFEID (SpiffeSDK.config s)) ;;
  match r with
  | Err err => ret (Some err, s)
  | Ok svid =>
    ret (None, SpiffeSDK.set_currentSVID s
                 (SVIDCache.mk (SVIDResponse.X509SVID svid)
                               (SVIDResponse.PrivateKey svid)
                               (SVIDResponse.Bundle svid)
                               (SVIDResponse.ExpiresAt svid)
                               (SVIDResponse.IssuedAt svid)))
  end.

(** What the [select] of the renewal loop receives: cancellation of the
    SDK's context, or a tick, with the clock reading that [time.Until] takes
    in that iteration. *)
Inductive selectCase : Type :=
| ctxDone
| tickerC (now : Time).

(** The body of [case <-ticker.C]. *)
Definition renewalTick (s : SpiffeSDK.t) (now : Time) : M SpiffeSDK.t :=
  let timeToExpiry := time_Until (SVIDCache.ExpiresAt (SpiffeSDK.currentSVID s)) now in
  if (timeToExpiry <=? Config.RenewalThreshold (SpiffeSDK.config s))%Z then
    r <- refreshSVID s ;;
    match fst r with
    | Some err =>
      (* Log error but continue trying *)
      fmt_Printf ("SVID renewal failed: %v" ++ nl) [argError err] ;;; ret (snd r)
    | None =>
      fmt_Printf ("SVID renewed successfully, expires at: %v" ++ nl)
                 [argTime (SVIDCache.ExpiresAt (SpiffeSDK.currentSVID (snd r)))] ;;;
      ret (snd r)
    end
  else ret s.

(** The [for { select { ... } }] loop over the events it receives.  The
    boolean tells whether the function has returned ([true]) or is blocked
    in [select] waiting for the next event ([false]). *)
Fixpoint renewalLoop (s : SpiffeSDK.t) (events : list selectCase)
  : M (SpiffeSDK.t * bool) :=
  match events with
  | [] => ret (s, false)
  | ctxDone :: _ => ret (s, true)
  | tickerC now :: rest => s' <- renewalTick s now ;; renewalLoop s' rest
  end.

(** [time.NewTicker(d)] panics unless [d] is positive. *)
Definition startAutoRenewal (s : SpiffeSDK.t) (events : list selectCase)
  : M (SpiffeSDK.t * bool) :=
  if (Config.CheckInterval (SpiffeSDK.config s) <=? 0)%Z then panic
  else renewalLoop s events.

(** [Initialize]; the boolean tells whether [go s.startAutoRenewal()] was
    reached. *)
Definition Initialize (s : SpiffeSDK.t) : M (option error * SpiffeSDK.t * bool) :=
  (* Step 1: Register with headless API *)
  e <- registerWithHeadlessAPI s ;;
  match e with
  | Some err => ret (Some (Errorf "registration failed: %w" [argError err]), s, false)
  | None =>
    (* Step 1.5: Try to initialize workload API now *)
    s <- match SpiffeSDK.workloadAPI s with
         | None => r <- initWorkloadAPI s ;; ret (snd r)
         | Some _ => ret s
         end ;;
    (* Step 2: Get initial SVID *)
    r <- refreshSVID s ;;
    match fst r with
    | Some err =>
      ret (Some (Errorf "initial SVID fetch failed: %w" [argError err]), snd r, false)
    | None =>
      let s := snd r in
      (* Step 3: Setup TLS configuration (only if workload API is available) *)
      match (match SpiffeSDK.workloadAPI s with
             | Some _ => setupTLSConfig s
             | None => (None, s)
             end) with
      | (Some err, s) => ret (Some (Errorf "TLS setup failed: %w" [argError err]), s, false)
      | (None, s) =>
        (* Step 4: Start auto-renewal background process *)
        ret (None, s, true)
      end
    end
  end.

Definition GetCurrentSVID (s : SpiffeSDK.t) : string :=
  SVIDCache.SVID (SpiffeSDK.currentSVID s).

(** ** Outbound transports *)

Definition NewInternalHTTPClient (s : SpiffeSDK.t) (internalDomains : list string)
  : smartTransport.t :=
  smartTransport.mk s internalDomains
    (http_Transport (SpiffeSDK.tlsConfig s)) http_DefaultTransport.

Definition hasSuffix (s suffix : string) : bool :=
  (String.length suffix <=? String.length s)%nat
  && String.eqb (substring (String.length s - String.length suffix)
                           (String.length suffix) s)
                suffix.

(** [s[0] == c], for [s] of positive length *)
Definition firstByteIs (s : string) (c : ascii) : bool :=
  match String.get 0 s with
  | Some b => Ascii.eqb b c
  | None => false
  end.

(** The two [if] conditions of the loop body in [smartTransport.RoundTrip]. *)
Definition exactOrDotSuffix (host domain : string) : bool :=
  String.eqb host domain
  || ((0 <? String.length domain)%nat && firstByteIs domain "." && hasSuffix host domain).

Definition bareDomain (host domain : string) : bool :=
  (1 <? String.length domain)%nat && negb (firstByteIs domain ".")
  && (String.eqb host domain || hasSuffix host ("." ++ domain)).

(** [for _, domain := range t.internalDomains { ... }] and the statement
    after it. *)
Fixpoint smartTransport_range (t : smartTransport.t) (req : loc) (host : string)
    (domains : list string) : M (Result Response.t) :=
  match domains with
  | [] =>
    (* Use regular HTTP for external services *)
    smartTransport.regularTransport t req
  | domain :: rest =>
    if exactOrDotSuffix host domain then
      (* Use mTLS for internal services *)
      smartTransport.mtlsTransport t req
    else if bareDomain host domain then
      smartTransport.mtlsTransport t req
    else smartTransport_range t req host rest
  end.

Definition smartTransport_RoundTrip (t : smartTransport.t) (req : loc)
  : M (Result Response.t) :=
  r <- loadRequest req ;;
  u <- loadURL (Request.URL r) ;;
  let host := URL.Host u in
  let host := if String.eqb host "" then Request.Host r else host in
  smartTransport_range t req host (smartTransport.internalDomains t).

Definition OutgoingAttachmentMiddleware (s : SpiffeSDK.t) (inner : option RoundTripper)
  : spiffeMTLSTransport.t :=
  spiffeMTLSTransport.mk s inner.

(** Returns the response and the receiver, whose [transport] field the
    method may have set. *)
Definition spiffeMTLSTransport_RoundTrip (t : spiffeMTLSTransport.t) (req : loc)
  : M (Result Response.t * spiffeMTLSTransport.t) :=
  (* Clone the request and add SPIFFE TLS config *)
  r <- loadRequest req ;;
  req <- Request_Clone req (Request.Context r) ;;
  (* Use the SPIFFE-configured transport *)
  let t :=
    match spiffeMTLSTransport.transport t with
    | None =>
      spiffeMTLSTransport.mk (spiffeMTLSTransport.sdk t)
        (Some (http_Transport (SpiffeSDK.tlsConfig (spiffeMTLSTransport.sdk t))))
    | Some _ => t
    end in
  match spiffeMTLSTransport.transport t with
  | Some inner => res <- inner req ;; ret (res, t)
  | None => panic
  end.

(** ** Inbound validation *)

Definition certToPEM (s : SpiffeSDK.t) (cert : Certificate.t) : string :=
  pem_EncodeToMemory "CERTIFICATE" (Certificate.Raw cert).

Definition ValidateIncomingSVID (s : SpiffeSDK.t) (cert : string)
  : M (Result ValidationResult.t) :=
  VerifyCertificate (SpiffeSDK.headlessAPI s) (VerifyPayload.mk cert).

(** [r.TLS.PeerCertificates[0]] when [r.TLS != nil] and the list is not
    empty. *)
Definition peerCertificate (r : Request.t) : option Certificate.t :=
  match Request.TLS r with
  | Some tls =>
    match ConnectionState.PeerCertificates tls with
    | clientCert :: _ => Some clientCert
    | [] => None
    end
  | None => None
  end.

Definition IncomingValidationMiddleware (s : SpiffeSDK.t) (next : Handler) : Handler :=
  fun w r =>
    req <- loadRequest r ;;
    (* Extract client certificate from TLS connection *)
    match peerCertificate req with
    | Some clientCert =>
      (* Convert to PEM format for validation *)
      let certPEM := certToPEM s clientCert in
      res <- ValidateIncomingSVID s certPEM ;;
      match res with
      | Err _ => http_Error w "Invalid client certificate" StatusUnauthorized
      | Ok result =>
        if negb (ValidationResult.Valid result) then
          http_Error w "Invalid client certificate" StatusUnauthorized
        else
          (* Add SPIFFE ID to request context *)
          let ctx := context_WithValue (Request.Context req) "spiffe_id"
                                       (ValidationResult.SPIFFEID result) in
          r <- Request_WithContext r ctx ;;
          next w r
      end
    | None => next w r
    end.

End Embedding.

(** ** Predicates used in the statements *)

Section Predicates.
Context {rt : GoRuntime}.

(** A rule of the router's list matches a host when either condition of
    the loop body holds for it. *)
Definition domainMatches (host domain : string) : bool :=
  exactOrDotSuffix host domain || bareDomain host domain.

(** The host that [smartTransport.RoundTrip] classifies. *)
Definition destinationHost (r : Request.t) (u : URL.t) : string :=
  if String.eqb (URL.Host u) "" then Request.Host r else URL.Host u.

(** [W'] is [W] after the requests [new] were handed to the HTTP client. *)
Definition afterSending (new : list Outbound.t) (W : World) : World :=
  set_sent (sent W ++ new)%list W.

(** The verdict of [err != nil || !result.Valid], negated. *)
Definition accepted (res : Result ValidationResult.t) : bool :=
  match res with
  | Ok result => ValidationResult.Valid result
  | Err _ => false
  end.

Definition verifiedIdentity (res : Result ValidationResult.t) : string :=
  match res with
  | Ok result => ValidationResult.SPIFFEID result
  | Err _ => ""
  end.

(** [*r] with the verified identity attached to its context. *)
Definition withIdentity (r : Request.t) (id : string) : Request.t :=
  Request.mk (Request.Method r) (Request.URL r) (Request.Header r) (Request.Body r)
             (Request.Host r) (Request.TLS r)
             (context_WithValue (Request.ctx r) "spiffe_id" id).

(** The pointers of a request lead to objects of the right kind. *)
Definition validPointers (W : World) (r : Request.t) : Prop :=
  (forall l, Request.URL r = Some l -> exists u, heap W !! l = Some (OURL u))
  /\ (forall l, Request.Header r = Some l -> exists h, heap W !! l = Some (OHeader h)).

Definition isBody (o : Obj) : bool :=
  match o with OBody _ => true | _ => false end.

(** The objects a transport owns when handed the request at [q]: the
    request struct, its URL and its header map. *)
Definition owns (W : World) (q l : loc) : Prop :=
  l = q \/ exists r, heap W !! q = Some (ORequest r)
                     /\ (Request.URL r = Some l \/ Request.Header r = Some l).

(** A transport is confined when, besides body streams, it writes only to
    objects it owns.  ([http.RoundTripper] asks for more: no write to the
    request at all.) *)
Definition confined (f : RoundTripper) : Prop :=
  forall q W res W' l o,
    f q W = Some (res, W') ->
    heap W !! l = Some o -> isBody o = false -> ~ owns W q l ->
    heap W' !! l = Some o.

(** The pointer [b] of a clone made from [W] into [W1] refers to a copy of
    what [a] refers to: both are [nil], or [b] is a location that [W] did
    not have and that holds in [W1] the object [a] holds in [W]. *)
Definition copied (W W1 : World) (a b : option loc) : Prop :=
  match a, b with
  | None, None => True
  | Some l, Some l' =>
    heap W !! l' = None
    /\ exists o, heap W !! l = Some o /\ heap W1 !! l' = Some o
  | _, _ => False
  end.

(** The transport that [spiffeMTLSTransport.RoundTrip] dispatches to, and
    the receiver as the method leaves it. *)
Definition innerTransport (t : spiffeMTLSTransport.t) : RoundTripper :=
  match spiffeMTLSTransport.transport t with
  | Some inner => inner
  | None => http_Transport (SpiffeSDK.tlsConfig (spiffeMTLSTransport.sdk t))
  end.

Definition afterRoundTrip (t : spiffeMTLSTransport.t) : spiffeMTLSTransport.t :=
  match spiffeMTLSTransport.transport t with
  | Some _ => t
  | None => spiffeMTLSTransport.mk (spiffeMTLSTransport.sdk t) (Some (innerTransport t))
  end.

(** [expires_at > issued_at] *)
Definition ordered (c : SVIDCache.t) : Prop :=
  (SVIDCache.IssuedAt c < SVIDCache.ExpiresAt c)%Z.

(** The validity window the store holds before any fetch has succeeded. *)
Definition unissued (c : SVIDCache.t) : Prop :=
  SVIDCache.IssuedAt c = zeroTime /\ SVIDCache.ExpiresAt c = zeroTime.

(** What the design document asks of a stored validity window, short of
    the value the store starts with. *)
Definition window (c : SVIDCache.t) : Prop := unissued c \/ ordered c.

(** Every issuance response of the service at [baseURL] carries an ordered
    validity window.  An issuance response is an answer with status 201 to
    an issuance request, the POST to [/spiresvc/api/v1/workloads/<id>/svid]
    that [GetOrRefreshSVID] builds; answers to other requests, and what
    their bodies would decode to, are left free. *)
Definition orderedResponses (baseURL : string) (W : World) : Prop :=
  forall hist workloadID issue resp svid,
    http_NewRequest "POST"
      (baseURL ++ "/spiresvc/api/v1/workloads/" ++ workloadID ++ "/svid") None = Ok issue ->
    network W hist issue = Ok resp ->
    Response.StatusCode resp = StatusCreated ->
    json_Decode_SVIDResponse (Response.Body resp) = Ok svid ->
    (SVIDResponse.IssuedAt svid < SVIDResponse.ExpiresAt svid)%Z.

(** The requests one call of [refreshSVID] can put on the wire: none (the
    lookup request could not be built), the lookup alone, or the lookup
    followed by one issuance request. *)
Definition oneFetch (new : list Outbound.t) : Prop :=
  new = []
  \/ (exists lookup, new = [lookup] /\ Outbound.Method lookup = "GET")
  \/ (exists lookup issue, new = [lookup; issue]
        /\ Outbound.Method lookup = "GET" /\ Outbound.Method issue = "POST").

(** The line a due tick prints, after [refreshSVID] returned [e] and left
    the SDK as [s']. *)
Definition renewalLine (e : option error) (s' : SpiffeSDK.t) : string * list fmtArg :=
  match e with
  | Some err => ("SVID renewal failed: %v" ++ nl, [argError err])
  | None => ("SVID renewed successfully, expires at: %v" ++ nl,
             [argTime (SVIDCache.ExpiresAt (SpiffeSDK.currentSVID s'))])
  end.

End Predicates.

(** ** A small runtime and service to run the embedding on

    Bodies are plain lines instead of JSON: the empty body does not decode;
    a lookup body is the workload id; a verification body starts with [1]
    when the certificate is valid and continues with the SPIFFE ID. *)

Module Demo.

Definition parse (url : string) : Result URL.t :=
  if String.eqb url "" then Err (libError "empty url") else Ok (URL.mk "" "" url "").

Definition decodeWorkloadResp (body : string) : Result WorkloadResp.t :=
  if String.eqb body "" then Err (libError "EOF")
  else if String.eqb body "[]" then Ok (WorkloadResp.mk [])
  else Ok (WorkloadResp.mk [Workload.mk body ""]).

Definition hour : Duration := (3600 * 1000000000)%Z.
Definition minute : Duration := (60 * 1000000000)%Z.

Definition decodeSVIDResponse (body : string) : Result SVIDResponse.t :=
  if String.eqb body "" then Err (libError "EOF")
  else Ok (SVIDResponse.mk "svid-1" "wl-1" "spiffe://authsec.dev/demo" body "key" "bundle"
                           (1000 + hour)%Z 1000%Z).

Definition decodeValidationResult (body : string) : Result ValidationResult.t :=
  match body with
  | EmptyString => Err (libError "EOF")
  | String c rest =>
    if Ascii.eqb c "1" then Ok (ValidationResult.mk true rest "" "" "" "")
    else Ok (ValidationResult.mk false "" "" "" "" "")
  end.

(** A transport that sends what the request at [p] describes. *)
Definition transport (c : option TLSConfig) : RoundTripper :=
  fun p =>
    r <- loadRequest p ;;
    u <- loadURL (Request.URL r) ;;
    Client.Do (Client.mk 0%Z) (Outbound.mk (Request.Method r) u [] None).

(** A transport that sets a header on the request it is given before
    sending it. *)
Definition stamping : RoundTripper :=
  fun p =>
    r <- loadRequest p ;;
    match Request.Header r with
    | Some lh =>
      h <- loadHeader lh ;;
      store lh (OHeader (Header_Set h "X-Request-Id" "1")) ;;;
      transport None p
    | None => transport None p
    end.

Definition runtime : GoRuntime := {|
  url_Parse := parse;
  json_Marshal_register := fun p => Ok (RegisterPayload.spiffe_id p);
  json_Marshal_verify := fun p => Ok (VerifyPayload.certificate p);
  json_Decode_WorkloadResp := decodeWorkloadResp;
  json_Decode_SVIDResponse := decodeSVIDResponse;
  json_Decode_ValidationResult := decodeValidationResult;
  pem_EncodeToMemory := fun type bytes => "-----BEGIN " ++ type ++ "-----" ++ bytes;
  http_Transport := transport;
  http_DefaultTransport := transport None |}.

(** The same runtime over a service whose credentials carry an expiry
    that precedes their issue time. *)
Definition decodeBackdated (body : string) : Result SVIDResponse.t :=
  if String.eqb body "" then Err (libError "EOF")
  else Ok (SVIDResponse.mk "svid-1" "wl-1" "spiffe://authsec.dev/demo" body "key" "bundle"
                           1000%Z (1000 + hour)%Z).

Definition backdated : GoRuntime := {|
  url_Parse := parse;
  json_Marshal_register := fun p => Ok (RegisterPayload.spiffe_id p);
  json_Marshal_verify := fun p => Ok (VerifyPayload.certificate p);
  json_Decode_WorkloadResp := decodeWorkloadResp;
  json_Decode_SVIDResponse := decodeBackdated;
  json_Decode_ValidationResult := decodeValidationResult;
  pem_EncodeToMemory := fun type bytes => "-----BEGIN " ++ type ++ "-----" ++ bytes;
  http_Transport := transport;
  http_DefaultTransport := transport None |}.

(** The same runtime with a decoder that, as [encoding/json] does, accepts
    a body of another shape: what is not a credential decodes to the
    zero-valued [SVIDResponse], whose validity window is empty. *)
Definition decodeLenient (body : string) : Result SVIDResponse.t :=
  if String.eqb body "" then Err (libError "EOF")
  else if String.eqb body "cert" then decodeSVIDResponse body
  else Ok (SVIDResponse.mk "" "" "" "" "" "" zeroTime zeroTime).

Definition lenient : GoRuntime := {|
  url_Parse := parse;
  json_Marshal_register := fun p => Ok (RegisterPayload.spiffe_id p);
  json_Marshal_verify := fun p => Ok (VerifyPayload.certificate p);
  json_Decode_WorkloadResp := decodeWorkloadResp;
  json_Decode_SVIDResponse := decodeLenient;
  json_Decode_ValidationResult := decodeValidationResult;
  pem_EncodeToMemory := fun type bytes => "-----BEGIN " ++ type ++ "-----" ++ bytes;
  http_Transport := transport;
  http_DefaultTransport := transport None |}.

(** An issuance service that answers every operation with its success
    code; [verifyStatus] and [verifyBody] are its answer to a verification. *)
Definition service (verifyStatus : Z) (verifyBody : string)
    (hist : list Outbound.t) (req : Outbound.t) : Result Response.t :=
  let path := URL.Path (Outbound.URL req) in
  if hasSuffix path "/register-and-issue" then Ok (Response.mk 201 "")
  else if hasSuffix path "/svid" then Ok (Response.mk 201 "cert")
  else if hasSuffix path "/verify/certificate" then Ok (Response.mk verifyStatus verifyBody)
  else Ok (Response.mk 200 "wl-1").

Definition healthy := service 200 "1spiffe://authsec.dev/test-customer-service".

(** The service cannot be reached. *)
Definition outage (hist : list Outbound.t) (req : Outbound.t) : Result Response.t :=
  Err (libError "connection refused").

Definition world (net : list Outbound.t -> Outbound.t -> Result Response.t)
    (h : list Obj) : World :=
  mkWorld h net [] (fun _ _ => Err (libError "no agent")) 0 [] [].

Definition config : Config.t :=
  Config.mk "test-customer-service" "spiffe://authsec.dev/test-customer-service"
            "application" "authsec" "authsec-sa" [("app", "test-customer-service")]
            "http://localhost:7475" "/run/spire/sockets/agent.sock" "authsec.dev"
            (5 * minute)%Z (1 * minute)%Z.

(** The SDK as [NewSpiffeSDK config] leaves it when no agent answers. *)
Definition sdk : SpiffeSDK.t :=
  SpiffeSDK.mk config (HeadlessAPI.mk "http://localhost:7475" (Client.mk 10000000000%Z))
               None SVIDCache.zero None.

(** An inbound request over mutual TLS, and one without a client
    certificate. *)
Definition inbound (certs : option (list Certificate.t)) : Request.t :=
  Request.mk "GET" None None None "payment-service.authsec"
             (option_map ConnectionState.mk certs) context_Background.

(** An outbound request with its URL and header objects at locations 1
    and 2. *)
Definition outbound : list Obj :=
  [ORequest (Request.mk "GET" (Some 1) (Some 2) None "" None context_Background);
   OURL (URL.mk "https" "payment-service.authsec" "/pay" "");
   OHeader [("Accept", ["*/*"])]].

(** A handler that writes a reply. *)
Definition handler : Handler := fun w r => http_Error w "ok" 200%Z.

End Demo.

(** ** More of the SDK and of the example services *)

(** An [http.Client] with its transport set, as [GetHTTPClient] returns
    it. *)
Module HTTPClient.
Record t := mk { Transport : RoundTripper; Timeout : Duration }.
End HTTPClient.

Section MoreOfTheSDK.
Context {rt : GoRuntime}.

Definition GetHTTPClient (s : SpiffeSDK.t) : HTTPClient.t :=
  HTTPClient.mk (http_Transport (SpiffeSDK.tlsConfig s)) (30 * 1000000000)%Z.

(** [v == c] for an interface value [v] taken from a context and a string
    constant [c]: the value is present and is that string. *)
Definition interface_eq (v : option string) (c : string) : bool :=
  match v with
  | Some id => String.eqb id c
  | None => false
  end.

(** [processPaymentHandler] of the payment service example.  [respond]
    stands for its last two statements, which set the content type and
    print the transaction with the caller and the current time. *)
Definition processPaymentHandler (respond : ResponseWriter -> option string -> M unit)
    (sdk : SpiffeSDK.t) : Handler :=
  fun w r =>
    req <- loadRequest r ;;
    (* Extract caller's SPIFFE ID from context *)
    let spiffeID := Context_Value (Request.Context req) "spiffe_id" in
    (* Validate that caller is authorized (e.g., customer-service) *)
    if negb (interface_eq spiffeID "spiffe://authsec.dev/customer-service") then
      http_Error w "Unauthorized caller" 403%Z
    else
      (* Process payment logic here *)
      respond w spiffeID.

(** *** Predicates used in the statements *)

Definition endsWith (s suffix : string) : Prop := exists p, s = p ++ suffix.

Definition startsWithDot (d : string) : Prop := exists rest, d = String "." rest.

(** What a rule of [internalDomains] covers, in terms of the strings. *)
Definition ruleCovers (host d : string) : Prop :=
  host = d
  \/ (startsWithDot d /\ endsWith host d)
  \/ ((1 < String.length d)%nat /\ ~ startsWithDot d /\ endsWith host ("." ++ d)).

Definition hasByte (c : ascii) (s : string) : Prop :=
  exists a b, s = a ++ String c b.

(** The router with another rule list. *)
Definition withDomains (t : smartTransport.t) (domains : list string) : smartTransport.t :=
  smartTransport.mk (smartTransport.sdk t) domains
                    (smartTransport.mtlsTransport t) (smartTransport.regularTransport t).

(** The outcome of a [RoundTrip], without the receiver. *)
Definition response {A B} (r : option ((A * B) * World)) : option (A * World) :=
  match r with
  | Some ((res, _), W) => Some (res, W)
  | None => None
  end.

(** The agent answers no call. *)
Definition agentDown (W : World) : Prop :=
  forall n addr, exists e, agent W n addr = Err e.

Fixpoint cancelled (events : list selectCase) : bool :=
  match events with
  | [] => false
  | ctxDone :: _ => true
  | tickerC _ :: rest => cancelled rest
  end.

End MoreOfTheSDK.

(** Further scenarios on the demo service. *)
Module Scenario.

(** A configuration that leaves the renewal settings unset. *)
Definition unset : Config.t :=
  Config.mk "demo-service" "spiffe://authsec.dev/demo-service"
            "application" "authsec" "authsec-sa" [("app", "demo-service")]
            "http://localhost:7475" "/run/spire/sockets/agent.sock" "authsec.dev"
            0%Z 0%Z.

(** A service whose lookup finds no workload. *)
Definition unregistered (hist : list Outbound.t) (req : Outbound.t) : Result Response.t :=
  let path := URL.Path (Outbound.URL req) in
  if hasSuffix path "/register-and-issue" then Ok (Response.mk 201 "")
  else Ok (Response.mk 200 "[]").

(** An agent that answers. *)
Definition withAgent (W : World) : World :=
  mkWorld (heap W) (network W) (sent W) (fun _ _ => Ok (x509Source 1))
          (agentCalls W) (stdout W) (replies W).

Definition respond : ResponseWriter -> option string -> M unit :=
  fun w id => http_Error w "processed" 200%Z.

(** The SDK over the configuration that leaves the renewal settings
    unset. *)
Definition sdkUnset : SpiffeSDK.t :=
  SpiffeSDK.mk unset (HeadlessAPI.mk "http://localhost:7475" (Client.mk 10000000000%Z))
               None SVIDCache.zero None.

(** The demo SDK when [NewSpiffeSDK] reached the agent. *)
Definition sdkWithSource : SpiffeSDK.t :=
  SpiffeSDK.set_workloadAPI Demo.sdk (Some (x509Source 1)).

(** An outbound request to a URL that names a port. *)
Definition outboundWithPort : list Obj :=
  [ORequest (Request.mk "GET" (Some 1) (Some 2) None "" None context_Background);
   OURL (URL.mk "https" "payment-service.authsec.svc.cluster.local:8080" "/process" "");
   OHeader []].

End Scenario.

(** * Properties *)

Section Properties.
Context {rt : GoRuntime}.

(** ** The monad *)

Lemma bind_Some {A B} (m : M A) (k : A -> M B) W a W' :
  m W = Some (a, W') -> (x <- m ;; k x) W = k a W'.
Proof. intros E. unfold bind. now rewrite E. Qed.

Lemma bind_None {A B} (m : M A) (k : A -> M B) W :
  m W = None -> (x <- m ;; k x) W = None.
Proof. intros E. unfold bind. now rewrite E. Qed.

Lemma loadRequest_Some p r W :
  heap W !! p = Some (ORequest r) -> loadRequest p W = Some (r, W).
Proof. intros E. unfold loadRequest. now rewrite E. Qed.

Lemma loadURL_Some l u W :
  heap W !! l = Some (OURL u) -> loadURL (Some l) W = Some (u, W).
Proof. intros E. unfold loadURL. now rewrite E. Qed.

Lemma loadHeader_Some l h W :
  heap W !! l = Some (OHeader h) -> loadHeader l W = Some (h, W).
Proof. intros E. unfold loadHeader. now rewrite E. Qed.

(** ** Transport router *)

(** The loop is a search for the first matching rule. *)
Lemma smartTransport_range_find t req host domains W :
  smartTransport_range t req host domains W =
  match find (domainMatches host) domains with
  | Some _ => smartTransport.mtlsTransport t req W
  | None => smartTransport.regularTransport t req W
  end.
Proof.
  induction domains as [|domain rest IH]; simpl; [reflexivity|].
  unfold domainMatches.
  destruct (exactOrDotSuffix host domain); simpl; [reflexivity|].
  destruct (bareDomain host domain); [reflexivity|exact IH].
Qed.

Lemma find_first_match {A} (p : A -> bool) pre d post :
  Forall (fun x => p x = false) pre -> p d = true ->
  find p (pre ++ d :: post)%list = Some d.
Proof.
  intros Hpre Hd. induction Hpre as [|x pre Hx _ IH]; simpl.
  - now rewrite Hd.
  - now rewrite Hx.
Qed.

Lemma smartTransport_RoundTrip_range t req r l u W :
  heap W !! req = Some (ORequest r) ->
  Request.URL r = Some l ->
  heap W !! l = Some (OURL u) ->
  smartTransport_RoundTrip t req W =
  smartTransport_range t req (destinationHost r u) (smartTransport.internalDomains t) W.
Proof.
  intros Hr Hl Hu. unfold smartTransport_RoundTrip.
  rewrite (bind_Some _ _ _ _ _ (loadRequest_Some _ _ _ Hr)).
  rewrite Hl, (bind_Some _ _ _ _ _ (loadURL_Some _ _ _ Hu)).
  reflexivity.
Qed.

(** C3.  [smartTransport.RoundTrip] hands the request, in the world it
    received, to the mutually-authenticated transport when some rule of
    [internalDomains] matches the destination host and to the regular
    transport otherwise; the choice is a function of the host and the rule
    list alone, and the first matching rule in list order decides.  With
    the rules [".svc.cluster.local"; "authsec"], the hosts
    "a.authsec.svc.cluster.local" and "payment-service.authsec" go to the
    mutually-authenticated transport and "external.example.com" to the
    regular one. *)
Theorem smartTransport_RoundTrip_first_match t req r l u W :
  heap W !! req = Some (ORequest r) ->
  Request.URL r = Some l ->
  heap W !! l = Some (OURL u) ->
  let host := destinationHost r u in
  let domains := smartTransport.internalDomains t in
  smartTransport_RoundTrip t req W =
    match find (domainMatches host) domains with
    | Some _ => smartTransport.mtlsTransport t req W
    | None => smartTransport.regularTransport t req W
    end
  /\ (forall pre d post,
        domains = (pre ++ d :: post)%list ->
        Forall (fun x => domainMatches host x = false) pre ->
        domainMatches host d = true ->
        find (domainMatches host) domains = Some d
        /\ smartTransport_RoundTrip t req W = smartTransport.mtlsTransport t req W)
  /\ (domains = [".svc.cluster.local"; "authsec"] ->
        (host = "a.authsec.svc.cluster.local" ->
           exactOrDotSuffix host ".svc.cluster.local" = true
           /\ smartTransport_RoundTrip t req W = smartTransport.mtlsTransport t req W)
        /\ (host = "payment-service.authsec" ->
           domainMatches host ".svc.cluster.local" = false
           /\ bareDomain host "authsec" = true
           /\ smartTransport_RoundTrip t req W = smartTransport.mtlsTransport t req W)
        /\ (host = "external.example.com" ->
           domainMatches host ".svc.cluster.local" = false
           /\ domainMatches host "authsec" = false
           /\ smartTransport_RoundTrip t req W = smartTransport.regularTransport t req W)).
Proof.
  intros Hr Hl Hu host domains.
  assert (E : smartTransport_RoundTrip t req W =
              match find (domainMatches host) domains with
              | Some _ => smartTransport.mtlsTransport t req W
              | None => smartTransport.regularTransport t req W
              end).
  { rewrite (smartTransport_RoundTrip_range _ _ _ _ _ _ Hr Hl Hu).
    apply smartTransport_range_find. }
  split; [exact E|split].
  - intros pre d post Hd Hpre Hm.
    assert (F : find (domainMatches host) domains = Some d)
      by (rewrite Hd; now apply find_first_match).
    split; [exact F|]. now rewrite E, F.
  - intros Hd. rewrite E, Hd.
    split; [|split]; intros Hh; rewrite Hh; repeat split.
Qed.

(** ** What the HeadlessAPI methods do to the world *)

Lemma afterSending_nil W : afterSending [] W = W.
Proof. destruct W. unfold afterSending, set_sent. simpl. now rewrite app_nil_r. Qed.

Lemma afterSending_app new1 new2 W :
  afterSending new2 (afterSending new1 W) = afterSending (new1 ++ new2)%list W.
Proof. unfold afterSending, set_sent. simpl. now rewrite app_assoc. Qed.

Lemma Do_afterSending c req W :
  Client.Do c req W = Some (network W (sent W) req, afterSending [req] W).
Proof. reflexivity. Qed.

(** [VerifyCertificate] always returns, having sent at most one request. *)
Lemma VerifyCertificate_runs api payload W :
  exists res new,
    VerifyCertificate api payload W = Some (res, afterSending new W)
    /\ (length new <= 1)%nat.
Proof.
  unfold VerifyCertificate.
  destruct (json_Marshal_verify payload) as [jsonData|e].
  2:{ exists (Err (Errorf "failed to marshal payload: %w" [argError e])), [].
      rewrite afterSending_nil. split; [reflexivity|simpl; lia]. }
  destruct (http_NewRequest _ _ _) as [req|e].
  2:{ exists (Err (Errorf "failed to create request: %w" [argError e])), [].
      rewrite afterSending_nil. split; [reflexivity|simpl; lia]. }
  unfold bind. rewrite Do_afterSending.
  destruct (network W (sent W) _) as [resp|e].
  2:{ eexists _, [_]. split; [reflexivity|simpl; lia]. }
  destruct (json_Decode_ValidationResult _) as [result|e];
    eexists _, [_]; (split; [reflexivity|simpl; lia]).
Qed.

(** ** Inbound validation *)

Lemma accepted_spec res :
  accepted res = true <->
  exists result, res = Ok result /\ ValidationResult.Valid result = true.
Proof.
  destruct res as [result|e]; simpl; split.
  - intros H. now exists result.
  - now intros (result' & [= <-] & H).
  - discriminate.
  - now intros (result' & [=] & _).
Qed.

(** C1.  A request that presents a peer certificate has it verified; the
    wrapped handler runs, on a copy of the request whose context carries the
    verified identity under ["spiffe_id"], exactly when verification returns
    without error and with [valid = true].  In every other case the
    middleware writes a 401 reply and returns, whatever the handler is. *)
Theorem IncomingValidationMiddleware_fail_closed s next w r W req cert :
  heap W !! r = Some (ORequest req) ->
  peerCertificate req = Some cert ->
  exists res new,
    let W1 := afterSending new W in
    let req' := withIdentity req (verifiedIdentity res) in
    ValidateIncomingSVID s (certToPEM s cert) W = Some (res, W1)
    /\ (accepted res = true <->
        exists result, res = Ok result /\ ValidationResult.Valid result = true)
    /\ (accepted res = true ->
        IncomingValidationMiddleware s next w r W =
          next w (length (heap W)) (set_heap (heap W ++ [ORequest req'])%list W1)
        /\ Context_Value (Request.Context req') "spiffe_id" = Some (verifiedIdentity res)
        /\ replies W1 = replies W)
    /\ (accepted res = false ->
        IncomingValidationMiddleware s next w r W =
          Some (tt, set_replies
                      (replies W ++ [(w, "Invalid client certificate", StatusUnauthorized)])%list
                      W1)
        /\ forall next',
             IncomingValidationMiddleware s next' w r W =
             IncomingValidationMiddleware s next w r W).
Proof.
  intros Hr Hcert.
  destruct (VerifyCertificate_runs (SpiffeSDK.headlessAPI s)
              (VerifyPayload.mk (certToPEM s cert)) W) as (res & new & Hv & _).
  exists res, new. cbv zeta.
  split; [exact Hv|]. split; [apply accepted_spec|].
  assert (Hrun : forall nx,
    IncomingValidationMiddleware s nx w r W =
    match res with
    | Err _ => http_Error w "Invalid client certificate" StatusUnauthorized
                 (afterSending new W)
    | Ok result =>
      if negb (ValidationResult.Valid result) then
        http_Error w "Invalid client certificate" StatusUnauthorized (afterSending new W)
      else
        nx w (length (heap W))
           (set_heap (heap W ++ [ORequest (withIdentity req (ValidationResult.SPIFFEID result))])%list
                     (afterSending new W))
    end).
  { intros nx. unfold IncomingValidationMiddleware.
    rewrite (bind_Some _ _ _ _ _ (loadRequest_Some _ _ _ Hr)), Hcert.
    unfold ValidateIncomingSVID in *. rewrite (bind_Some _ _ _ _ _ Hv).
    destruct res as [result|e]; [|reflexivity].
    destruct (ValidationResult.Valid result); [|reflexivity].
    assert (Hr' : heap (afterSending new W) !! r = Some (ORequest req)) by exact Hr.
    unfold Request_WithContext, bind. cbn [negb].
    rewrite (loadRequest_Some _ _ _ Hr').
    reflexivity. }
  split.
  - intros Hacc. rewrite Hrun.
    destruct res as [result|e]; [|discriminate]. simpl in Hacc. rewrite Hacc.
    split; [reflexivity|]. split; reflexivity.
  - intros Hrej.
    assert (Hstop : forall nx,
      IncomingValidationMiddleware s nx w r W =
      Some (tt, set_replies
                  (replies W ++ [(w, "Invalid client certificate", StatusUnauthorized)])%list
                  (afterSending new W))).
    { intros nx. rewrite Hrun. destruct res as [result|e]; [|reflexivity].
      simpl in Hrej. rewrite Hrej. reflexivity. }
    split; [apply Hstop|]. intros next'. now rewrite !Hstop.
Qed.

(** C5.  A request without TLS connection state, or with an empty list of
    peer certificates, goes to the wrapped handler as it is: same request
    object, same world, so nothing was sent to the issuance service and no
    identity was attached. *)
Theorem IncomingValidationMiddleware_pass_through s next w r W req :
  heap W !! r = Some (ORequest req) ->
  (Request.TLS req = None
   \/ exists tls, Request.TLS req = Some tls
                  /\ ConnectionState.PeerCertificates tls = []) ->
  IncomingValidationMiddleware s next w r W = next w r W.
Proof.
  intros Hr Hno. unfold IncomingValidationMiddleware.
  rewrite (bind_Some _ _ _ _ _ (loadRequest_Some _ _ _ Hr)).
  assert (Hcert : peerCertificate req = None).
  { unfold peerCertificate. destruct Hno as [->|(tls & -> & ->)]; reflexivity. }
  now rewrite Hcert.
Qed.

(** ** Status codes *)

(** [RegisterAndIssueSVID] succeeds only on status 201. *)
Lemma RegisterAndIssueSVID_success api payload W W' :
  RegisterAndIssueSVID api payload W = Some (None, W') ->
  exists req resp,
    network W (sent W) req = Ok resp
    /\ Response.StatusCode resp = StatusCreated
    /\ W' = afterSending [req] W.
Proof.
  unfold RegisterAndIssueSVID.
  destruct (json_Marshal_register payload) as [jsonData|e]; [|discriminate].
  destruct (http_NewRequest _ _ _) as [req|e]; [|discriminate].
  unfold bind. rewrite Do_afterSending.
  destruct (network W (sent W) _) as [resp|e] eqn:Hnet; [|discriminate].
  destruct (Response.StatusCode resp =? StatusCreated)%Z eqn:Hs; [|discriminate].
  intros [= <-]. apply Z.eqb_eq in Hs. eauto.
Qed.

(** [VerifyCertificate] returns whatever the body decodes to; the status
    code of the response plays no part. *)
Lemma VerifyCertificate_any_status api payload W jsonData req resp result :
  json_Marshal_verify payload = Ok jsonData ->
  http_NewRequest "POST" (HeadlessAPI.BaseURL api ++ "/api/v1/verify/certificate")
                  (Some jsonData) = Ok req ->
  network W (sent W) (Outbound.setHeader req "Content-Type" "application/json") = Ok resp ->
  json_Decode_ValidationResult (Response.Body resp) = Ok result ->
  VerifyCertificate api payload W =
  Some (Ok result,
        afterSending [Outbound.setHeader req "Content-Type" "application/json"] W).
Proof.
  intros Hm Hq Hn Hd. unfold VerifyCertificate. rewrite Hm, Hq.
  unfold bind. rewrite Do_afterSending, Hn, Hd. reflexivity.
Qed.

(** ** Issuance *)

(** [GetOrRefreshSVID] always returns, after at most one lookup and one
    issuance request; a credential it returns was decoded from an answer of
    the network. *)
Lemma GetOrRefreshSVID_runs api spiffeID W :
  exists res new,
    GetOrRefreshSVID api spiffeID W = Some (res, afterSending new W)
    /\ oneFetch new
    /\ forall svid, res = Ok svid ->
         exists hist req resp,
           network W hist req = Ok resp
           /\ json_Decode_SVIDResponse (Response.Body resp) = Ok svid.
Proof.
  unfold GetOrRefreshSVID.
  destruct (http_NewRequest "GET" _ _) as [lookup|e] eqn:Hlookup.
  2:{ eexists _, []. rewrite afterSending_nil.
      split; [reflexivity|]. split; [now left|discriminate]. }
  assert (Hget : Outbound.Method lookup = "GET").
  { unfold http_NewRequest in Hlookup. destruct (url_Parse _); [|discriminate].
    now injection Hlookup as <-. }
  assert (One : oneFetch [lookup]) by (right; left; eauto).
  unfold bind at 1. rewrite Do_afterSending.
  destruct (network W (sent W) lookup) as [resp|e].
  2:{ eexists _, [lookup]. split; [reflexivity|]. split; [exact One|discriminate]. }
  destruct (negb _).
  { eexists _, [lookup]. split; [reflexivity|]. split; [exact One|discriminate]. }
  destruct (json_Decode_WorkloadResp _) as [workloadResp|e].
  2:{ eexists _, [lookup]. split; [reflexivity|]. split; [exact One|discriminate]. }
  destruct (WorkloadResp.Workloads workloadResp) as [|first rest].
  { eexists _, [lookup]. split; [reflexivity|]. split; [exact One|discriminate]. }
  destruct (http_NewRequest "POST" _ _) as [issue|e] eqn:Hissue.
  2:{ eexists _, [lookup]. split; [reflexivity|]. split; [exact One|discriminate]. }
  assert (Hpost : Outbound.Method issue = "POST").
  { unfold http_NewRequest in Hissue. destruct (url_Parse _); [|discriminate].
    now injection Hissue as <-. }
  assert (Two : oneFetch [lookup; issue]) by (right; right; eauto).
  unfold bind. rewrite Do_afterSending, (afterSending_app [lookup] [issue]).
  destruct (network (afterSending [lookup] W) _ issue) as [svidResp|e] eqn:Hnet.
  2:{ eexists _, [lookup; issue]. split; [reflexivity|]. split; [exact Two|discriminate]. }
  destruct (negb _).
  { eexists _, [lookup; issue]. split; [reflexivity|]. split; [exact Two|discriminate]. }
  destruct (json_Decode_SVIDResponse _) as [svid|e] eqn:Hdec.
  2:{ eexists _, [lookup; issue]. split; [reflexivity|]. split; [exact Two|discriminate]. }
  eexists _, [lookup; issue]. split; [reflexivity|]. split; [exact Two|].
  intros svid' [= <-]. exists (sent (afterSending [lookup] W)), issue, svidResp.
  split; [exact Hnet|exact Hdec].
Qed.

(** What one call puts on the wire, request by request.  When the lookup
    request cannot be built nothing is sent.  Otherwise the lookup is sent,
    alone when the call fails before the issuance request is built, or
    followed by the issuance request for the first workload listed; a
    credential is returned only from a 201 answer to that request. *)
Lemma GetOrRefreshSVID_attempt api spiffeID W :
  exists res new,
    GetOrRefreshSVID api spiffeID W = Some (res, afterSending new W)
    /\ match http_NewRequest "GET"
               (HeadlessAPI.BaseURL api ++ "/spiresvc/api/v1/workloads?spiffe_id=" ++ spiffeID)
               None with
       | Err err =>
         new = [] /\ res = Err (Errorf "failed to create request: %w" [argError err])
       | Ok lookup =>
         (new = [lookup] /\ exists err, res = Err err)
         \/ (exists workloadID issue,
               new = [lookup; issue]
               /\ http_NewRequest "POST"
                    (HeadlessAPI.BaseURL api ++ "/spiresvc/api/v1/workloads/"
                       ++ workloadID ++ "/svid") None = Ok issue
               /\ forall svid, res = Ok svid ->
                    exists resp,
                      network W (sent W ++ [lookup])%list issue = Ok resp
                      /\ Response.StatusCode resp = StatusCreated
                      /\ json_Decode_SVIDResponse (Response.Body resp) = Ok svid)
       end.
Proof.
  unfold GetOrRefreshSVID.
  destruct (http_NewRequest "GET" _ _) as [lookup|e] eqn:Hlookup.
  2:{ eexists _, []. rewrite afterSending_nil. split; [reflexivity|]. split; reflexivity. }
  unfold bind at 1. rewrite Do_afterSending.
  destruct (network W (sent W) lookup) as [resp|e].
  2:{ eexists _, [lookup]. split; [reflexivity|]. left. eauto. }
  destruct (negb _).
  { eexists _, [lookup]. split; [reflexivity|]. left. eauto. }
  destruct (json_Decode_WorkloadResp _) as [workloadResp|e].
  2:{ eexists _, [lookup]. split; [reflexivity|]. left. eauto. }
  destruct (WorkloadResp.Workloads workloadResp) as [|first rest].
  { eexists _, [lookup]. split; [reflexivity|]. left. eauto. }
  destruct (http_NewRequest "POST" _ _) as [issue|e] eqn:Hissue.
  2:{ eexists _, [lookup]. split; [reflexivity|]. left. eauto. }
  unfold bind. rewrite Do_afterSending, (afterSending_app [lookup] [issue]).
  destruct (network (afterSending [lookup] W) _ issue) as [svidResp|e] eqn:Hnet.
  2:{ eexists _, [lookup; issue]. split; [reflexivity|]. right.
      exists (Workload.ID first), issue.
      split; [reflexivity|]. split; [exact Hissue|discriminate]. }
  destruct (Response.StatusCode svidResp =? StatusCreated)%Z eqn:Hst; cbn [negb].
  2:{ eexists _, [lookup; issue]. split; [reflexivity|]. right.
      exists (Workload.ID first), issue.
      split; [reflexivity|]. split; [exact Hissue|discriminate]. }
  apply Z.eqb_eq in Hst.
  destruct (json_Decode_SVIDResponse _) as [svid|e] eqn:Hdec.
  2:{ eexists _, [lookup; issue]. split; [reflexivity|]. right.
      exists (Workload.ID first), issue.
      split; [reflexivity|]. split; [exact Hissue|discriminate]. }
  eexists _, [lookup; issue]. split; [reflexivity|]. right.
  exists (Workload.ID first), issue.
  split; [reflexivity|]. split; [exact Hissue|].
  intros svid' [= <-]. exists svidResp.
  split; [exact Hnet|]. split; [exact Hst|exact Hdec].
Qed.

(** The lookup must be answered with 200. *)
Lemma GetOrRefreshSVID_lookup_status api spiffeID W lookup resp :
  http_NewRequest "GET"
    (HeadlessAPI.BaseURL api ++ "/spiresvc/api/v1/workloads?spiffe_id=" ++ spiffeID)
    None = Ok lookup ->
  network W (sent W) lookup = Ok resp ->
  Response.StatusCode resp <> StatusOK ->
  GetOrRefreshSVID api spiffeID W =
  Some (Err (Errorf "failed to get workload with status %d: %s"
                    [argInt (Response.StatusCode resp); argString (Response.Body resp)]),
        afterSending [lookup] W).
Proof.
  intros Hl Hn Hs. unfold GetOrRefreshSVID. rewrite Hl.
  unfold bind. rewrite Do_afterSending, Hn.
  apply Z.eqb_neq in Hs. now rewrite Hs.
Qed.

(** The issuance must be answered with 201. *)
Lemma GetOrRefreshSVID_issuance_status api spiffeID W lookup lookupResp workloadResp
    first rest issue resp :
  http_NewRequest "GET"
    (HeadlessAPI.BaseURL api ++ "/spiresvc/api/v1/workloads?spiffe_id=" ++ spiffeID)
    None = Ok lookup ->
  network W (sent W) lookup = Ok lookupResp ->
  Response.StatusCode lookupResp = StatusOK ->
  json_Decode_WorkloadResp (Response.Body lookupResp) = Ok workloadResp ->
  WorkloadResp.Workloads workloadResp = first :: rest ->
  http_NewRequest "POST"
    (HeadlessAPI.BaseURL api ++ "/spiresvc/api/v1/workloads/"
       ++ Workload.ID first ++ "/svid")
    None = Ok issue ->
  network W (sent W ++ [lookup])%list issue = Ok resp ->
  Response.StatusCode resp <> StatusCreated ->
  GetOrRefreshSVID api spiffeID W =
  Some (Err (Errorf "SVID issuance failed with status %d: %s"
                    [argInt (Response.StatusCode resp); argString (Response.Body resp)]),
        afterSending [lookup; issue] W).
Proof.
  intros Hl Hn1 Hs1 Hd Hw Hi Hn2 Hs2. unfold GetOrRefreshSVID. rewrite Hl.
  unfold bind at 1. rewrite Do_afterSending, Hn1, Hs1, Z.eqb_refl. cbn [negb].
  rewrite Hd, Hw, Hi.
  unfold bind. rewrite Do_afterSending, (afterSending_app [lookup] [issue]).
  cbn [afterSending set_sent sent network]. rewrite Hn2.
  apply Z.eqb_neq in Hs2. now rewrite Hs2.
Qed.

(** The registration must be answered with 201. *)
Lemma RegisterAndIssueSVID_status api payload W jsonData req resp :
  json_Marshal_register payload = Ok jsonData ->
  http_NewRequest "POST"
    (HeadlessAPI.BaseURL api ++ "/spiresvc/api/v1/workloads/register-and-issue")
    (Some jsonData) = Ok req ->
  network W (sent W) (Outbound.setHeader req "Content-Type" "application/json") = Ok resp ->
  Response.StatusCode resp <> StatusCreated ->
  RegisterAndIssueSVID api payload W =
  Some (Some (Errorf "registration failed with status %d: %s"
                     [argInt (Response.StatusCode resp); argString (Response.Body resp)]),
        afterSending [Outbound.setHeader req "Content-Type" "application/json"] W).
Proof.
  intros Hm Hq Hn Hs. unfold RegisterAndIssueSVID. rewrite Hm, Hq.
  unfold bind. rewrite Do_afterSending, Hn.
  apply Z.eqb_neq in Hs. now rewrite Hs.
Qed.

(** C10.  A call of [GetOrRefreshSVID] that returns a credential has looked
    the workload up (status 200), taken the first workload of the list,
    sent the issuance request for that workload's id (status 201), and
    returns what the body of that answer decodes to: the credential comes
    from an issuance made during the call, never from an earlier one. *)
Theorem GetOrRefreshSVID_always_issues api spiffeID W svid W' :
  GetOrRefreshSVID api spiffeID W = Some (Ok svid, W') ->
  exists lookup lookupResp workloadResp first rest issue issueResp,
    http_NewRequest "GET"
      (HeadlessAPI.BaseURL api ++ "/spiresvc/api/v1/workloads?spiffe_id=" ++ spiffeID)
      None = Ok lookup
    /\ network W (sent W) lookup = Ok lookupResp
    /\ Response.StatusCode lookupResp = StatusOK
    /\ json_Decode_WorkloadResp (Response.Body lookupResp) = Ok workloadResp
    /\ WorkloadResp.Workloads workloadResp = first :: rest
    /\ http_NewRequest "POST"
         (HeadlessAPI.BaseURL api ++ "/spiresvc/api/v1/workloads/"
            ++ Workload.ID first ++ "/svid")
         None = Ok issue
    /\ network W (sent W ++ [lookup])%list issue = Ok issueResp
    /\ Response.StatusCode issueResp = StatusCreated
    /\ json_Decode_SVIDResponse (Response.Body issueResp) = Ok svid
    /\ sent W' = (sent W ++ [lookup; issue])%list
    /\ W' = afterSending [lookup; issue] W.
Proof.
  unfold GetOrRefreshSVID.
  destruct (http_NewRequest "GET" _ _) as [lookup|e] eqn:Hlookup; [|discriminate].
  unfold bind at 1. rewrite Do_afterSending.
  destruct (network W (sent W) lookup) as [lookupResp|e] eqn:Hnet1; [|discriminate].
  destruct (Response.StatusCode lookupResp =? StatusOK)%Z eqn:Hs1; [|discriminate].
  cbn [negb].
  destruct (json_Decode_WorkloadResp _) as [workloadResp|e] eqn:Hdec1; [|discriminate].
  destruct (WorkloadResp.Workloads workloadResp) as [|first rest] eqn:Hw; [discriminate|].
  destruct (http_NewRequest "POST" _ _) as [issue|e] eqn:Hissue; [|discriminate].
  unfold bind. rewrite Do_afterSending, (afterSending_app [lookup] [issue]).
  destruct (network (afterSending [lookup] W) _ issue) as [issueResp|e] eqn:Hnet2;
    [|discriminate].
  destruct (Response.StatusCode issueResp =? StatusCreated)%Z eqn:Hs2; [|discriminate].
  cbn [negb].
  destruct (json_Decode_SVIDResponse _) as [svid0|e] eqn:Hdec2; [|discriminate].
  intros [= <- <-]. apply Z.eqb_eq in Hs1, Hs2.
  exists lookup, lookupResp, workloadResp, first, rest, issue, issueResp.
  repeat split; try assumption.
Qed.

(** ** Credential store *)

(** [refreshSVID] always returns.  On an error the SDK is as before; on
    success the store holds the five fields of a credential decoded from an
    answer of the network. *)
Lemma refreshSVID_runs s W :
  exists e s' new,
    refreshSVID s W = Some ((e, s'), afterSending new W)
    /\ oneFetch new
    /\ match e with
       | Some _ => s' = s
       | None =>
         exists svid hist req resp,
           network W hist req = Ok resp
           /\ json_Decode_SVIDResponse (Response.Body resp) = Ok svid
           /\ s' = SpiffeSDK.set_currentSVID s
                     (SVIDCache.mk (SVIDResponse.X509SVID svid)
                                   (SVIDResponse.PrivateKey svid)
                                   (SVIDResponse.Bundle svid)
                                   (SVIDResponse.ExpiresAt svid)
                                   (SVIDResponse.IssuedAt svid))
       end.
Proof.
  destruct (GetOrRefreshSVID_runs (SpiffeSDK.headlessAPI s)
              (Config.SPIFFEID (SpiffeSDK.config s)) W) as (res & new & Hrun & Hone & Hsrc).
  unfold refreshSVID. rewrite (bind_Some _ _ _ _ _ Hrun).
  destruct res as [svid|err].
  - eexists None, _, new. split; [reflexivity|]. split; [exact Hone|].
    destruct (Hsrc svid eq_refl) as (hist & req & resp & Hn & Hd).
    exists svid, hist, req, resp. auto.
  - exists (Some err), s, new. auto.
Qed.

Lemma refreshSVID_failure s W err s' W' :
  refreshSVID s W = Some ((Some err, s'), W') -> s' = s.
Proof.
  destruct (refreshSVID_runs s W) as (e & s1 & new & Hrun & _ & Hs).
  rewrite Hrun. intros [= -> -> _]. exact Hs.
Qed.

(** One call of [refreshSVID], request by request: the requests are those
    of [GetOrRefreshSVID] for the configured SPIFFE ID; the API client and
    the configuration are kept; and the store is written only from a 201
    answer to the issuance request. *)
Lemma refreshSVID_attempt s W :
  exists e s' new,
    refreshSVID s W = Some ((e, s'), afterSending new W)
    /\ SpiffeSDK.headlessAPI s' = SpiffeSDK.headlessAPI s
    /\ SpiffeSDK.config s' = SpiffeSDK.config s
    /\ match http_NewRequest "GET"
               (HeadlessAPI.BaseURL (SpiffeSDK.headlessAPI s)
                  ++ "/spiresvc/api/v1/workloads?spiffe_id="
                  ++ Config.SPIFFEID (SpiffeSDK.config s))
               None with
       | Err err =>
         new = [] /\ e = Some (Errorf "failed to create request: %w" [argError err])
       | Ok lookup =>
         (new = [lookup] /\ e <> None)
         \/ (exists workloadID issue,
               new = [lookup; issue]
               /\ http_NewRequest "POST"
                    (HeadlessAPI.BaseURL (SpiffeSDK.headlessAPI s)
                       ++ "/spiresvc/api/v1/workloads/" ++ workloadID ++ "/svid")
                    None = Ok issue
               /\ (e = None ->
                   exists resp svid,
                     network W (sent W ++ [lookup])%list issue = Ok resp
                     /\ Response.StatusCode resp = StatusCreated
                     /\ json_Decode_SVIDResponse (Response.Body resp) = Ok svid
                     /\ SpiffeSDK.currentSVID s' =
                        SVIDCache.mk (SVIDResponse.X509SVID svid)
                                     (SVIDResponse.PrivateKey svid)
                                     (SVIDResponse.Bundle svid)
                                     (SVIDResponse.ExpiresAt svid)
                                     (SVIDResponse.IssuedAt svid)))
       end.
Proof.
  destruct (GetOrRefreshSVID_attempt (SpiffeSDK.headlessAPI s)
              (Config.SPIFFEID (SpiffeSDK.config s)) W) as (res & new & Hrun & Hshape).
  unfold refreshSVID. rewrite (bind_Some _ _ _ _ _ Hrun).
  destruct res as [svid|err].
  - eexists None, _, new. split; [reflexivity|]. split; [reflexivity|].
    split; [reflexivity|].
    destruct (http_NewRequest "GET" _ _) as [lookup|e0].
    + destruct Hshape as [[_ [err Herr]]|(workloadID & issue & Hnew & Hissue & Hok)];
        [discriminate|].
      right. exists workloadID, issue. split; [exact Hnew|]. split; [exact Hissue|].
      intros _. destruct (Hok svid eq_refl) as (resp & Hn & Hst & Hd).
      exists resp, svid. auto.
    + destruct Hshape as [_ Herr]. discriminate.
  - exists (Some err), s, new. split; [reflexivity|]. split; [reflexivity|].
    split; [reflexivity|].
    destruct (http_NewRequest "GET" _ _) as [lookup|e0].
    + destruct Hshape as [[Hnew _]|(workloadID & issue & Hnew & Hissue & _)].
      * left. split; [exact Hnew|discriminate].
      * right. exists workloadID, issue. split; [exact Hnew|].
        split; [exact Hissue|discriminate].
    + destruct Hshape as [Hnew Herr]. split; [exact Hnew|]. now injection Herr as <-.
Qed.

(** Under well-formed issuance responses a refresh keeps every property of
    the stored window that well-formed windows have. *)
Lemma refreshSVID_window (P : SVIDCache.t -> Prop) s W e s' W' :
  (forall c, ordered c -> P c) ->
  orderedResponses (HeadlessAPI.BaseURL (SpiffeSDK.headlessAPI s)) W ->
  P (SpiffeSDK.currentSVID s) ->
  refreshSVID s W = Some ((e, s'), W') ->
  P (SpiffeSDK.currentSVID s') /\ network W' = network W
  /\ (e = None -> ordered (SpiffeSDK.currentSVID s'))
  /\ SpiffeSDK.headlessAPI s' = SpiffeSDK.headlessAPI s.
Proof.
  intros HP Hord Hw.
  destruct (refreshSVID_attempt s W) as (e1 & s1 & new & Hrun & Hapi & _ & Hshape).
  rewrite Hrun. intros [= -> -> <-].
  destruct e as [err|].
  - rewrite (refreshSVID_failure _ _ _ _ _ Hrun).
    repeat split; [assumption|discriminate].
  - assert (Ho : ordered (SpiffeSDK.currentSVID s')).
    { destruct (http_NewRequest "GET" _ _) as [lookup|e0].
      - destruct Hshape as [[_ Hne]|(workloadID & issue & _ & Hissue & Hok)];
          [now elim Hne|].
        destruct (Hok eq_refl) as (resp & svid & Hn & Hst & Hd & ->).
        exact (Hord _ _ _ _ _ Hissue Hn Hst Hd).
      - destruct Hshape as [_ Herr]. discriminate. }
    repeat split; auto.
Qed.

(** ** Renewal loop *)

Lemma renewalTick_idle s now W :
  (Config.RenewalThreshold (SpiffeSDK.config s)
   < time_Until (SVIDCache.ExpiresAt (SpiffeSDK.currentSVID s)) now)%Z ->
  renewalTick s now W = Some (s, W).
Proof.
  intros H. unfold renewalTick. apply Z.leb_gt in H. now rewrite H.
Qed.

Lemma renewalTick_due s now W e s' W1 :
  (time_Until (SVIDCache.ExpiresAt (SpiffeSDK.currentSVID s)) now
   <= Config.RenewalThreshold (SpiffeSDK.config s))%Z ->
  refreshSVID s W = Some ((e, s'), W1) ->
  renewalTick s now W =
  Some (s', set_stdout (stdout W1 ++ [renewalLine e s'])%list W1).
Proof.
  intros H Hr. unfold renewalTick. apply Z.leb_le in H. rewrite H.
  rewrite (bind_Some _ _ _ _ _ Hr). cbn [fst snd].
  destruct e; reflexivity.
Qed.

Lemma renewalTick_runs s now W :
  exists s' W', renewalTick s now W = Some (s', W')
                /\ network W' = network W
                /\ SpiffeSDK.headlessAPI s' = SpiffeSDK.headlessAPI s
                /\ forall P : SVIDCache.t -> Prop,
                     (forall c, ordered c -> P c) ->
                     orderedResponses (HeadlessAPI.BaseURL (SpiffeSDK.headlessAPI s)) W ->
                     P (SpiffeSDK.currentSVID s) ->
                     P (SpiffeSDK.currentSVID s').
Proof.
  destruct (Z.le_gt_cases
              (time_Until (SVIDCache.ExpiresAt (SpiffeSDK.currentSVID s)) now)
              (Config.RenewalThreshold (SpiffeSDK.config s))) as [Hdue|Hidle].
  - destruct (refreshSVID_attempt s W) as (e & s' & new & Hrun & Hapi & _ & _).
    eexists _, _. split; [exact (renewalTick_due _ _ _ _ _ _ Hdue Hrun)|].
    split; [reflexivity|]. split; [exact Hapi|]. intros P HP Hord Hw.
    exact (proj1 (refreshSVID_window P _ _ _ _ _ HP Hord Hw Hrun)).
  - exists s, W. rewrite (renewalTick_idle _ _ _ Hidle). auto.
Qed.

(** The loop never panics, and keeps the validity window well-formed when
    the responses are. *)
Lemma renewalLoop_runs events : forall s W,
  exists s' b W',
    renewalLoop s events W = Some ((s', b), W')
    /\ network W' = network W
    /\ forall P : SVIDCache.t -> Prop,
         (forall c, ordered c -> P c) ->
         orderedResponses (HeadlessAPI.BaseURL (SpiffeSDK.headlessAPI s)) W ->
         P (SpiffeSDK.currentSVID s) ->
         P (SpiffeSDK.currentSVID s').
Proof.
  induction events as [|[|now] rest IH]; intros s W; simpl.
  - exists s, false, W. auto.
  - exists s, true, W. auto.
  - destruct (renewalTick_runs s now W) as (s1 & W1 & Htick & Hnet & Hapi & Hw1).
    rewrite (bind_Some _ _ _ _ _ Htick).
    destruct (IH s1 W1) as (s2 & b & W2 & Hloop & Hnet2 & Hw2).
    exists s2, b, W2. split; [exact Hloop|]. split; [congruence|].
    intros P HP Hord Hw. apply Hw2; [exact HP| |now apply Hw1].
    rewrite Hapi. unfold orderedResponses in *. rewrite Hnet. exact Hord.
Qed.

Lemma startAutoRenewal_ticking s events :
  (0 < Config.CheckInterval (SpiffeSDK.config s))%Z ->
  startAutoRenewal s events = renewalLoop s events.
Proof.
  intros H. unfold startAutoRenewal. apply Z.leb_gt in H. now rewrite H.
Qed.

(** C6.  A tick of the renewal loop, with the ticker running.  When the
    time to expiry is above the renewal threshold the loop passes the tick
    over: it goes on to the remaining events with the SDK and the world as
    they are, so nothing is sent and nothing printed.  When the time to
    expiry is at or below the threshold the tick is one call of
    [refreshSVID], after which one line is printed and the loop goes on.
    That call sends the workload lookup for the configured SPIFFE ID,
    whenever that request can be built, and after it at most one request,
    an issuance POST; it sends the lookup alone only when it fails.  When
    the lookup request cannot be built the call fails with that error and
    sends nothing. *)
Theorem startAutoRenewal_fetches_when_due s now rest W :
  (0 < Config.CheckInterval (SpiffeSDK.config s))%Z ->
  let timeToExpiry := time_Until (SVIDCache.ExpiresAt (SpiffeSDK.currentSVID s)) now in
  let threshold := Config.RenewalThreshold (SpiffeSDK.config s) in
  let baseURL := HeadlessAPI.BaseURL (SpiffeSDK.headlessAPI s) in
  ((threshold < timeToExpiry)%Z ->
   startAutoRenewal s (tickerC now :: rest) W = renewalLoop s rest W)
  /\ ((timeToExpiry <= threshold)%Z ->
      exists e s' new,
        refreshSVID s W = Some ((e, s'), afterSending new W)
        /\ sent (afterSending new W) = (sent W ++ new)%list
        /\ startAutoRenewal s (tickerC now :: rest) W =
           renewalLoop s' rest
             (set_stdout (stdout W ++ [renewalLine e s'])%list (afterSending new W))
        /\ match http_NewRequest "GET"
                   (baseURL ++ "/spiresvc/api/v1/workloads?spiffe_id="
                      ++ Config.SPIFFEID (SpiffeSDK.config s))
                   None with
           | Err err =>
             new = [] /\ e = Some (Errorf "failed to create request: %w" [argError err])
           | Ok lookup =>
             (new = [lookup] /\ e <> None)
             \/ (exists workloadID issue,
                   new = [lookup; issue]
                   /\ http_NewRequest "POST"
                        (baseURL ++ "/spiresvc/api/v1/workloads/" ++ workloadID ++ "/svid")
                        None = Ok issue)
           end).
Proof.
  intros Hpos. cbv zeta. rewrite (startAutoRenewal_ticking _ _ Hpos). split.
  - intros Hidle. simpl.
    now rewrite (bind_Some _ _ _ _ _ (renewalTick_idle _ _ W Hidle)).
  - intros Hdue.
    destruct (refreshSVID_attempt s W) as (e & s' & new & Hrun & _ & _ & Hshape).
    exists e, s', new. split; [exact Hrun|]. split; [reflexivity|].
    split.
    + simpl. now rewrite (bind_Some _ _ _ _ _ (renewalTick_due _ _ _ _ _ _ Hdue Hrun)).
    + destruct (http_NewRequest "GET" _ _) as [lookup|err]; [|exact Hshape].
      destruct Hshape as [Hone|(workloadID & issue & Hnew & Hissue & _)];
        [now left|].
      right. exists workloadID, issue. split; [exact Hnew|exact Hissue].
Qed.

(** C7.  When the refresh of a due tick fails, no field of the SDK, and so
    of the stored credential, changes; the error is printed; the loop goes
    on to its next event with the SDK as it was before the tick; and the
    loop returns no error and does not panic, whatever events follow. *)
Theorem renewal_failure_keeps_credential s now rest W err s' W1 :
  (time_Until (SVIDCache.ExpiresAt (SpiffeSDK.currentSVID s)) now
   <= Config.RenewalThreshold (SpiffeSDK.config s))%Z ->
  refreshSVID s W = Some ((Some err, s'), W1) ->
  let W2 := set_stdout (app (stdout W1) [("SVID renewal failed: %v" ++ nl, [argError err])])
                       W1 in
  s' = s
  /\ SpiffeSDK.currentSVID s' = SpiffeSDK.currentSVID s
  /\ renewalTick s now W = Some (s, W2)
  /\ renewalLoop s (tickerC now :: rest) W = renewalLoop s rest W2
  /\ (exists s3 b W3, renewalLoop s (tickerC now :: rest) W = Some ((s3, b), W3))
  /\ ((0 < Config.CheckInterval (SpiffeSDK.config s))%Z ->
      startAutoRenewal s (tickerC now :: rest) W = startAutoRenewal s rest W2).
Proof.
  intros Hdue Hfail W2.
  assert (Hs : s' = s) by exact (refreshSVID_failure _ _ _ _ _ Hfail).
  subst s'.
  assert (Htick : renewalTick s now W = Some (s, W2))
    by exact (renewalTick_due _ _ _ _ _ _ Hdue Hfail).
  assert (Hloop : renewalLoop s (tickerC now :: rest) W = renewalLoop s rest W2).
  { simpl. now rewrite (bind_Some _ _ _ _ _ Htick). }
  repeat split; try assumption.
  - destruct (renewalLoop_runs (tickerC now :: rest) s W) as (s3 & b & W3 & H & _).
    eauto.
  - intros Hpos. now rewrite !startAutoRenewal_ticking.
Qed.

(** ** Construction and initialisation *)

Lemma time_Until_zero now :
  (zeroTime < now)%Z -> (time_Until zeroTime now < 0)%Z.
Proof.
  intros H. unfold time_Until, Time_Sub, zeroTime, minDuration, maxDuration in *.
  repeat match goal with |- context [(?a <? ?b)%Z] => destruct (Z.ltb_spec a b) end; lia.
Qed.

(** [NewSpiffeSDK] always returns an SDK, whose store is [&SVIDCache{}]. *)
Lemma NewSpiffeSDK_runs cfg W :
  exists sdk W',
    NewSpiffeSDK cfg W = Some (Ok sdk, W')
    /\ SpiffeSDK.currentSVID sdk = SVIDCache.zero
    /\ network W' = network W
    /\ HeadlessAPI.BaseURL (SpiffeSDK.headlessAPI sdk) = Config.HeadlessAPIURL cfg.
Proof.
  unfold NewSpiffeSDK, initWorkloadAPI, workloadapi_NewX509Source, bind.
  destruct (agent W (agentCalls W) _); eexists _, _; repeat split.
Qed.

Lemma RegisterAndIssueSVID_runs api payload W :
  exists e new, RegisterAndIssueSVID api payload W = Some (e, afterSending new W).
Proof.
  unfold RegisterAndIssueSVID.
  destruct (json_Marshal_register payload) as [jsonData|e].
  2:{ eexists _, []. now rewrite afterSending_nil. }
  destruct (http_NewRequest _ _ _) as [req|e].
  2:{ eexists _, []. now rewrite afterSending_nil. }
  unfold bind. rewrite Do_afterSending.
  destruct (network W (sent W) _) as [resp|e]; [|eexists _, [_]; reflexivity].
  destruct (negb _); eexists _, [_]; reflexivity.
Qed.

Lemma initWorkloadAPI_runs s W :
  exists e s' W',
    initWorkloadAPI s W = Some ((e, s'), W')
    /\ SpiffeSDK.currentSVID s' = SpiffeSDK.currentSVID s
    /\ SpiffeSDK.headlessAPI s' = SpiffeSDK.headlessAPI s
    /\ SpiffeSDK.config s' = SpiffeSDK.config s
    /\ network W' = network W.
Proof.
  unfold initWorkloadAPI, workloadapi_NewX509Source, bind.
  destruct (agent W (agentCalls W) _); eexists _, _, _; repeat split.
Qed.

(** A failed registration ends [Initialize] at once, with the SDK as it
    was and no renewal loop started. *)
Lemma Initialize_registration_failure s W err W' :
  registerWithHeadlessAPI s W = Some (Some err, W') ->
  Initialize s W =
  Some ((Some (Errorf "registration failed: %w" [argError err]), s, false), W').
Proof.
  intros H. unfold Initialize. now rewrite (bind_Some _ _ _ _ _ H).
Qed.

(** [Initialize] keeps well-formed windows, and leaves an ordered one when
    it succeeds. *)
Lemma Initialize_window (P : SVIDCache.t -> Prop) s W e s' started W' :
  (forall c, ordered c -> P c) ->
  orderedResponses (HeadlessAPI.BaseURL (SpiffeSDK.headlessAPI s)) W ->
  P (SpiffeSDK.currentSVID s) ->
  Initialize s W = Some ((e, s', started), W') ->
  P (SpiffeSDK.currentSVID s') /\ network W' = network W
  /\ (e = None -> ordered (SpiffeSDK.currentSVID s'))
  /\ SpiffeSDK.headlessAPI s' = SpiffeSDK.headlessAPI s.
Proof.
  intros HP Hord Hw. unfold Initialize, registerWithHeadlessAPI.
  destruct (RegisterAndIssueSVID_runs (SpiffeSDK.headlessAPI s)
              (RegisterPayload.mk (Config.SPIFFEID (SpiffeSDK.config s))
                 (Config.ServiceType (SpiffeSDK.config s))
                 (app ["k8s:ns:" ++ Config.Namespace (SpiffeSDK.config s);
                       "k8s:sa:" ++ Config.ServiceAccount (SpiffeSDK.config s)]
                      (map (fun kv => "k8s:pod-label:" ++ fst kv ++ ":" ++ snd kv)
                           (Config.PodLabels (SpiffeSDK.config s))))) W)
    as (e0 & new & Hreg).
  cbv zeta. rewrite (bind_Some _ _ _ _ _ Hreg).
  destruct e0 as [err|].
  { unfold ret. intros H. simplify_eq. repeat split; [assumption|discriminate]. }
  assert (Hagent : exists s1 W1,
    (match SpiffeSDK.workloadAPI s with
     | None => r <- initWorkloadAPI s ;; ret (snd r)
     | Some _ => ret s
     end) (afterSending new W) = Some (s1, W1)
    /\ SpiffeSDK.currentSVID s1 = SpiffeSDK.currentSVID s
    /\ network W1 = network W
    /\ SpiffeSDK.headlessAPI s1 = SpiffeSDK.headlessAPI s).
  { destruct (SpiffeSDK.workloadAPI s).
    - eexists _, _. repeat split.
    - destruct (initWorkloadAPI_runs s (afterSending new W))
        as (e1 & s1 & W1 & Hi & Hc & Ha & _ & Hn).
      exists s1, W1. rewrite (bind_Some _ _ _ _ _ Hi). repeat split; assumption. }
  destruct Hagent as (s1 & W1 & Hi & Hc & Hn & Ha).
  rewrite (bind_Some _ _ _ _ _ Hi).
  destruct (refreshSVID s1 W1) as [[[e2 s2] W2]|] eqn:Href.
  2:{ rewrite (bind_None _ _ _ Href). discriminate. }
  rewrite (bind_Some _ _ _ _ _ Href). cbn [fst snd].
  assert (Hord1 : orderedResponses (HeadlessAPI.BaseURL (SpiffeSDK.headlessAPI s1)) W1)
    by (rewrite Ha; unfold orderedResponses in *; rewrite Hn; exact Hord).
  assert (Hw1 : P (SpiffeSDK.currentSVID s1)) by (rewrite Hc; exact Hw).
  destruct (refreshSVID_window P _ _ _ _ _ HP Hord1 Hw1 Href) as (Hw2 & Hn2 & Ho2 & Ha2).
  destruct e2 as [err|].
  { unfold ret. intros H. simplify_eq.
    repeat split; first [assumption|congruence|discriminate]. }
  unfold setupTLSConfig, ret.
  destruct (SpiffeSDK.workloadAPI s2); intros H; simplify_eq;
    (repeat split; first [assumption|congruence|cbn; congruence|auto]).
Qed.



(** ** Outgoing attachment *)

Lemma lookup_fresh (h : list Obj) l : (length h <= l)%nat -> h !! l = None.
Proof. apply lookup_ge_None_2. Qed.

Lemma lookup_old (h new : list Obj) l (o : Obj) :
  h !! l = Some o -> (h ++ new)%list !! l = Some o.
Proof. intros H. rewrite lookup_app_l; [exact H|]. now apply lookup_lt_Some in H. Qed.

Lemma lookup_new0 (h : list Obj) a xs : (h ++ a :: xs)%list !! length h = Some a.
Proof. now apply list_lookup_middle. Qed.

Lemma lookup_new1 (h : list Obj) a b xs :
  (h ++ a :: b :: xs)%list !! (length h + 1) = Some b.
Proof.
  change (a :: b :: xs) with ([a] ++ b :: xs)%list. rewrite app_assoc.
  apply list_lookup_middle. rewrite length_app. reflexivity.
Qed.

Lemma lookup_new2 (h : list Obj) a b c xs :
  (h ++ a :: b :: c :: xs)%list !! (length h + 1 + 1) = Some c.
Proof.
  change (a :: b :: c :: xs) with ([a; b] ++ c :: xs)%list. rewrite app_assoc.
  apply list_lookup_middle. rewrite length_app. simpl. lia.
Qed.

Ltac heap_norm :=
  cbn [heap set_heap sent network replies Request.URL Request.Header Request.Method
       Request.Host Request.TLS Request.Body Request.ctx];
  rewrite ?length_app; cbn [length app]; rewrite <- ?app_assoc; cbn [app].

Ltac heap_lookup :=
  first [ apply lookup_fresh; lia
        | apply lookup_new0 | apply lookup_new1 | apply lookup_new2
        | now apply lookup_old ].

(** [Clone] allocates; it writes to nothing that exists.  The clone has
    the scalar fields and the body of the original, the given context, and
    copies of the URL and of the header map. *)
Lemma Request_Clone_runs req r c W :
  heap W !! req = Some (ORequest r) ->
  validPointers W r ->
  exists req' r' W1,
    Request_Clone req c W = Some (req', W1)
    /\ heap W !! req' = None
    /\ heap W1 !! req' = Some (ORequest r')
    /\ (forall l o, heap W !! l = Some o -> heap W1 !! l = Some o)
    /\ Request.Method r' = Request.Method r
    /\ Request.Host r' = Request.Host r
    /\ Request.TLS r' = Request.TLS r
    /\ Request.Body r' = Request.Body r
    /\ Request.ctx r' = c
    /\ copied W W1 (Request.URL r) (Request.URL r')
    /\ copied W W1 (Request.Header r) (Request.Header r')
    /\ sent W1 = sent W /\ network W1 = network W /\ replies W1 = replies W.
Proof.
  intros Hr [HU HH]. unfold Request_Clone.
  rewrite (bind_Some _ _ _ _ _ (loadRequest_Some _ _ _ Hr)).
  destruct (Request.URL r) as [lu|] eqn:Eu; destruct (Request.Header r) as [lh|] eqn:Eh.
  - destruct (HU lu eq_refl) as [u Hu]. destruct (HH lh eq_refl) as [h Hh].
    eexists _, (Request.mk (Request.Method r) (Some (length (heap W)))
                  (Some (length (heap W ++ [OURL u])%list))
                  (Request.Body r) (Request.Host r) (Request.TLS r) c), _.
    split.
    { unfold cloneURL, Header_Clone, alloc, bind.
      rewrite (loadURL_Some _ _ _ Hu). cbn.
      rewrite (loadHeader_Some _ h); [|cbn; now apply lookup_old].
      reflexivity. }
    heap_norm. unfold copied.
    repeat (split; [try reflexivity; try heap_lookup|]); try reflexivity.
    + exists (OURL u). split; [exact Hu|heap_norm; heap_lookup].
    + exists (OHeader h). split; [exact Hh|heap_norm; heap_lookup].
  - destruct (HU lu eq_refl) as [u Hu].
    eexists _, (Request.mk (Request.Method r) (Some (length (heap W))) None
                  (Request.Body r) (Request.Host r) (Request.TLS r) c), _.
    split.
    { unfold cloneURL, Header_Clone, alloc, bind.
      rewrite (loadURL_Some _ _ _ Hu). reflexivity. }
    heap_norm. unfold copied.
    repeat (split; [try reflexivity; try heap_lookup|]); try reflexivity.
    + exists (OURL u). split; [exact Hu|heap_norm; heap_lookup].
  - destruct (HH lh eq_refl) as [h Hh].
    eexists _, (Request.mk (Request.Method r) None (Some (length (heap W)))
                  (Request.Body r) (Request.Host r) (Request.TLS r) c), _.
    split.
    { unfold cloneURL, Header_Clone, alloc, bind. cbn.
      rewrite (loadHeader_Some _ _ _ Hh). reflexivity. }
    heap_norm. unfold copied.
    repeat (split; [try reflexivity; try heap_lookup|]); try reflexivity.
    + exists (OHeader h). split; [exact Hh|heap_norm; heap_lookup].
  - eexists _, (Request.mk (Request.Method r) None None
                  (Request.Body r) (Request.Host r) (Request.TLS r) c), _.
    split; [reflexivity|].
    heap_norm. unfold copied.
    repeat (split; [try reflexivity; try heap_lookup|]); reflexivity.
Qed.

(** C8.  [spiffeMTLSTransport.RoundTrip] clones the request and hands the
    inner transport the clone: a request object that did not exist before,
    with the same method, host, TLS state, context and body reference, and
    with its own copies of the URL and of the header map.  Making the clone
    writes to no existing object.  So the original request, its URL and its
    header map hold after [RoundTrip] what they held before, for every inner
    transport that writes only to the request it is given and to body
    streams. *)
Theorem spiffeMTLSTransport_RoundTrip_keeps_original t req r W :
  heap W !! req = Some (ORequest r) ->
  validPointers W r ->
  exists req' r' W1,
    Request_Clone req (Request.Context r) W = Some (req', W1)
    /\ spiffeMTLSTransport_RoundTrip t req W =
         (res <- innerTransport t req' ;; ret (res, afterRoundTrip t)) W1
    /\ req' <> req
    /\ heap W !! req' = None
    /\ heap W1 !! req' = Some (ORequest r')
    /\ (forall l o, heap W !! l = Some o -> heap W1 !! l = Some o)
    /\ Request.Method r' = Request.Method r
    /\ Request.Host r' = Request.Host r
    /\ Request.TLS r' = Request.TLS r
    /\ Request.Body r' = Request.Body r
    /\ Request.ctx r' = Request.ctx r
    /\ copied W W1 (Request.URL r) (Request.URL r')
    /\ copied W W1 (Request.Header r) (Request.Header r')
    /\ (confined (innerTransport t) ->
        forall res t' W2,
          spiffeMTLSTransport_RoundTrip t req W = Some ((res, t'), W2) ->
          heap W2 !! req = Some (ORequest r)
          /\ forall l o, heap W !! l = Some o -> isBody o = false ->
                         heap W2 !! l = Some o).
Proof.
  intros Hr Hvalid.
  destruct (Request_Clone_runs req r (Request.Context r) W Hr Hvalid)
    as (req' & r' & W1 & Hclone & Hfresh & Hreq' & Hold & Hm & Hh & Ht & Hb & Hc
        & HcU & HcH & _).
  exists req', r', W1.
  assert (Hdispatch : spiffeMTLSTransport_RoundTrip t req W =
            (res <- innerTransport t req' ;; ret (res, afterRoundTrip t)) W1).
  { unfold spiffeMTLSTransport_RoundTrip.
    rewrite (bind_Some _ _ _ _ _ (loadRequest_Some _ _ _ Hr)).
    rewrite (bind_Some _ _ _ _ _ Hclone).
    unfold innerTransport, afterRoundTrip.
    destruct (spiffeMTLSTransport.transport t) as [inner|] eqn:Et; cbn.
    - now rewrite Et.
    - unfold innerTransport. now rewrite Et. }
  repeat (split; [first [assumption | congruence]|]).
  intros Hconf res t' W2 Hrun.
  assert (Hkeep : forall l o, heap W !! l = Some o -> isBody o = false ->
                              heap W2 !! l = Some o).
  { intros l o Hl Ho. rewrite Hdispatch in Hrun. unfold bind in Hrun.
    destruct (innerTransport t req' W1) as [[res0 W2']|] eqn:Hinner; [|discriminate].
    unfold ret in Hrun. simplify_eq.
    apply (Hconf req' W1 res W2 l o Hinner (Hold _ _ Hl) Ho).
    intros [->|(r0 & Hr0 & Hown)]; [congruence|].
    rewrite Hreq' in Hr0. injection Hr0 as <-.
    destruct Hown as [Hu|Hu]; rewrite Hu in *.
    - unfold copied in HcU. destruct (Request.URL r); [|contradiction].
      destruct HcU as [Hnone _]. congruence.
    - unfold copied in HcH. destruct (Request.Header r); [|contradiction].
      destruct HcH as [Hnone _]. congruence. }
  split; [|exact Hkeep]. exact (Hkeep _ _ Hr eq_refl).
Qed.

End Properties.

(** * The properties on the demo service *)

Section OnTheDemoService.
Existing Instance Demo.runtime.

Lemma smartTransport_RoundTrip_first_match_demo :
  let t := NewInternalHTTPClient Demo.sdk [".svc.cluster.local"; "authsec"] in
  let W := Demo.world Demo.healthy Demo.outbound in
  heap W !! 0 = Some (ORequest (Request.mk "GET" (Some 1) (Some 2) None "" None
                                           context_Background))
  /\ heap W !! 1 = Some (OURL (URL.mk "https" "payment-service.authsec" "/pay" ""))
  /\ smartTransport_RoundTrip t 0 W = smartTransport.mtlsTransport t 0 W.
Proof.
  cbv zeta. split; [reflexivity|]. split; [reflexivity|].
  destruct (smartTransport_RoundTrip_first_match
              (NewInternalHTTPClient Demo.sdk [".svc.cluster.local"; "authsec"])
              0 _ 1 _ (Demo.world Demo.healthy Demo.outbound)
              eq_refl eq_refl eq_refl) as (_ & _ & Hrules).
  destruct (Hrules eq_refl) as (_ & Hpayment & _).
  exact (proj2 (proj2 (Hpayment eq_refl))).
Defined.

Lemma IncomingValidationMiddleware_fail_closed_demo :
  let req := Demo.inbound (Some [Certificate.mk "der"]) in
  let W := Demo.world Demo.healthy [ORequest req] in
  heap W !! 0 = Some (ORequest req)
  /\ peerCertificate req = Some (Certificate.mk "der")
  /\ exists res new,
       ValidateIncomingSVID Demo.sdk (certToPEM Demo.sdk (Certificate.mk "der")) W
         = Some (res, afterSending new W)
       /\ accepted res = true
       /\ IncomingValidationMiddleware Demo.sdk Demo.handler 7 0 W =
          Demo.handler 7 1
            (set_heap [ORequest req; ORequest (withIdentity req (verifiedIdentity res))]
                      (afterSending new W)).
Proof.
  cbv zeta. split; [reflexivity|]. split; [reflexivity|].
  destruct (IncomingValidationMiddleware_fail_closed Demo.sdk Demo.handler 7 0
              (Demo.world Demo.healthy [ORequest (Demo.inbound (Some [Certificate.mk "der"]))])
              _ _ eq_refl eq_refl) as (res & new & Hv & _ & Hacc & _).
  exists res, new. split; [exact Hv|].
  assert (Ha : accepted res = true).
  { vm_compute in Hv. injection Hv as <- _. reflexivity. }
  split; [exact Ha|]. exact (proj1 (Hacc Ha)).
Defined.

Lemma IncomingValidationMiddleware_pass_through_demo :
  let req := Demo.inbound None in
  let W := Demo.world Demo.healthy [ORequest req] in
  heap W !! 0 = Some (ORequest req)
  /\ Request.TLS req = None
  /\ IncomingValidationMiddleware Demo.sdk Demo.handler 7 0 W = Demo.handler 7 0 W.
Proof.
  cbv zeta. split; [reflexivity|]. split; [reflexivity|].
  exact (IncomingValidationMiddleware_pass_through Demo.sdk Demo.handler 7 0
           (Demo.world Demo.healthy [ORequest (Demo.inbound None)])
           _ eq_refl (or_introl eq_refl)).
Defined.

(** With the zero-valued store the credential is overdue at the first
    tick: the loop sends the lookup and the issuance request to the healthy
    service.  At the next tick the credential it stored is not due, and
    nothing more is sent. *)
Lemma startAutoRenewal_fetches_when_due_demo :
  let W := Demo.world Demo.healthy [] in
  (0 < Config.CheckInterval (SpiffeSDK.config Demo.sdk))%Z
  /\ (time_Until (SVIDCache.ExpiresAt (SpiffeSDK.currentSVID Demo.sdk)) 1000
      <= Config.RenewalThreshold (SpiffeSDK.config Demo.sdk))%Z
  /\ exists lookup issue s' W',
       startAutoRenewal Demo.sdk [tickerC 1000%Z; tickerC 2000%Z] W = Some ((s', false), W')
       /\ sent W' = [lookup; issue]
       /\ Outbound.Method lookup = "GET"
       /\ Outbound.Method issue = "POST"
       /\ (Config.RenewalThreshold (SpiffeSDK.config s')
           < time_Until (SVIDCache.ExpiresAt (SpiffeSDK.currentSVID s')) 2000)%Z.
Proof.
  cbv zeta.
  assert (Hpos : (0 < Config.CheckInterval (SpiffeSDK.config Demo.sdk))%Z)
    by (vm_compute; reflexivity).
  assert (Hdue : (time_Until (SVIDCache.ExpiresAt (SpiffeSDK.currentSVID Demo.sdk)) 1000
                  <= Config.RenewalThreshold (SpiffeSDK.config Demo.sdk))%Z)
    by (vm_compute; discriminate).
  split; [exact Hpos|]. split; [exact Hdue|].
  destruct (proj2 (startAutoRenewal_fetches_when_due Demo.sdk 1000%Z [tickerC 2000%Z]
                     (Demo.world Demo.healthy []) Hpos) Hdue)
    as (e & s' & new & Hrun & _ & Hloop & _).
  vm_compute in Hrun. simplify_eq.
  eexists _, _, _, _. split; [rewrite Hloop; vm_compute; reflexivity|].
  repeat split.
Defined.

(** During an outage the refresh fails and the loop goes on; the tick
    after it fails in the same way. *)
Lemma renewal_failure_keeps_credential_demo :
  let W := Demo.world Demo.outage [] in
  exists err W1,
    (time_Until (SVIDCache.ExpiresAt (SpiffeSDK.currentSVID Demo.sdk)) 1000
     <= Config.RenewalThreshold (SpiffeSDK.config Demo.sdk))%Z
    /\ refreshSVID Demo.sdk W = Some ((Some err, Demo.sdk), W1)
    /\ renewalLoop Demo.sdk [tickerC 1000%Z; tickerC 2000%Z; ctxDone] W =
       renewalLoop Demo.sdk [tickerC 2000%Z; ctxDone]
         (set_stdout (app (stdout W1) [("SVID renewal failed: %v" ++ nl, [argError err])]) W1).
Proof.
  cbv zeta. eexists _, _.
  assert (Hdue : (time_Until (SVIDCache.ExpiresAt (SpiffeSDK.currentSVID Demo.sdk)) 1000
                  <= Config.RenewalThreshold (SpiffeSDK.config Demo.sdk))%Z)
    by (vm_compute; discriminate).
  split; [exact Hdue|].
  assert (Hfail : refreshSVID Demo.sdk (Demo.world Demo.outage []) =
                  Some ((Some (Errorf "failed to send request: %w"
                                      [argError (libError "connection refused")]),
                         Demo.sdk),
                        afterSending
                          [Outbound.mk "GET"
                             (URL.mk "" ""
                                ("http://localhost:7475/spiresvc/api/v1/workloads?spiffe_id="
                                 ++ "spiffe://authsec.dev/test-customer-service") "")
                             [] None]
                          (Demo.world Demo.outage [])))
    by reflexivity.
  split; [exact Hfail|].
  destruct (renewal_failure_keeps_credential Demo.sdk 1000%Z [tickerC 2000%Z; ctxDone]
              _ _ _ _ Hdue Hfail) as (_ & _ & _ & Hloop & _).
  exact Hloop.
Defined.


Lemma GetOrRefreshSVID_always_issues_demo :
  let api := SpiffeSDK.headlessAPI Demo.sdk in
  let W := Demo.world Demo.healthy [] in
  exists svid W' lookup issue,
    GetOrRefreshSVID api "spiffe://authsec.dev/test-customer-service" W = Some (Ok svid, W')
    /\ sent W' = [lookup; issue]
    /\ URL.Path (Outbound.URL issue) =
       "http://localhost:7475/spiresvc/api/v1/workloads/wl-1/svid".
Proof.
  cbv zeta.
  assert (Hrun : exists svid W',
             GetOrRefreshSVID (SpiffeSDK.headlessAPI Demo.sdk)
               "spiffe://authsec.dev/test-customer-service"
               (Demo.world Demo.healthy []) = Some (Ok svid, W'))
    by (eexists _, _; vm_compute; reflexivity).
  destruct Hrun as (svid & W' & Hrun).
  destruct (GetOrRefreshSVID_always_issues _ _ _ _ _ Hrun)
    as (lookup & lookupResp & workloadResp & first & rest & issue & issueResp
        & Hl & Hn1 & _ & Hd1 & Hw & Hi & _ & _ & _ & Hsent & _).
  exists svid, W', lookup, issue. split; [exact Hrun|]. split; [exact Hsent|].
  vm_compute in Hl. injection Hl as <-.
  vm_compute in Hn1. injection Hn1 as <-.
  vm_compute in Hd1. injection Hd1 as <-.
  vm_compute in Hw. injection Hw as <- _.
  vm_compute in Hi. injection Hi as <-. reflexivity.
Defined.


Lemma Demo_transport_heap c p W res W' :
  Demo.transport c p W = Some (res, W') -> heap W' = heap W.
Proof.
  unfold Demo.transport, bind, loadRequest. intros Hrun.
  destruct (heap W !! p) as [[r| | |]|]; try discriminate.
  unfold loadURL in Hrun.
  destruct (Request.URL r) as [lu|]; try discriminate.
  destruct (heap W !! lu) as [[| u | |]|]; try discriminate.
  cbn in Hrun. now injection Hrun as _ <-.
Qed.

(** The stamping transport writes to the header map of its request only. *)
Lemma Demo_stamping_confined : confined Demo.stamping.
Proof.
  intros q W res W' l o Hrun Hl _ Hnot.
  unfold Demo.stamping, bind, loadRequest in Hrun.
  destruct (heap W !! q) as [[r| | |]|] eqn:Hq; try discriminate.
  destruct (Request.Header r) as [lh|] eqn:Hh.
  - unfold loadHeader in Hrun.
    destruct (heap W !! lh) as [[| |h|]|]; try discriminate.
    cbn in Hrun. apply Demo_transport_heap in Hrun. rewrite Hrun. cbn.
    rewrite list_lookup_insert_ne; [exact Hl|].
    intros <-. apply Hnot. right. exists r. auto.
  - apply Demo_transport_heap in Hrun. now rewrite Hrun.
Qed.

(** The inner transport stamps the clone's header map, at location 4; the
    caller's request, URL and header map, at locations 0 to 2, are as
    before. *)
Lemma spiffeMTLSTransport_RoundTrip_keeps_original_demo :
  let t := OutgoingAttachmentMiddleware Demo.sdk (Some Demo.stamping) in
  let W := Demo.world Demo.healthy Demo.outbound in
  let r := Request.mk "GET" (Some 1) (Some 2) None "" None context_Background in
  heap W !! 0 = Some (ORequest r)
  /\ validPointers W r
  /\ confined (innerTransport t)
  /\ exists res t' W2,
       spiffeMTLSTransport_RoundTrip t 0 W = Some ((res, t'), W2)
       /\ heap W2 !! 0 = Some (ORequest r)
       /\ heap W2 !! 1 = heap W !! 1
       /\ heap W2 !! 2 = Some (OHeader [("Accept", ["*/*"])])
       /\ heap W2 !! 4 = Some (OHeader [("X-Request-Id", ["1"]); ("Accept", ["*/*"])]).
Proof.
  cbv zeta.
  assert (Hvalid : validPointers (Demo.world Demo.healthy Demo.outbound)
                     (Request.mk "GET" (Some 1) (Some 2) None "" None context_Background)).
  { split; intros l [= <-]; eexists; reflexivity. }
  assert (Hconf : confined (innerTransport
                              (OutgoingAttachmentMiddleware Demo.sdk (Some Demo.stamping))))
    by apply Demo_stamping_confined.
  split; [reflexivity|]. split; [exact Hvalid|]. split; [exact Hconf|].
  destruct (spiffeMTLSTransport_RoundTrip_keeps_original
              (OutgoingAttachmentMiddleware Demo.sdk (Some Demo.stamping)) 0 _
              (Demo.world Demo.healthy Demo.outbound) eq_refl Hvalid)
    as (req' & r' & W1 & _ & _ & _ & _ & _ & _ & _ & _ & _ & _ & _ & _ & _ & Hkeep).
  eexists _, _, _. split; [vm_compute; reflexivity|].
  destruct (Hkeep Hconf _ _ _ eq_refl) as (H0 & Hothers).
  split; [exact H0|].
  split; [exact (Hothers 1 _ eq_refl eq_refl)|].
  split; [exact (Hothers 2 _ eq_refl eq_refl)|reflexivity].
Defined.

(** C2, at the failing input.  The service answers a verification with
    status 500 and a body that decodes to a valid result;
    [VerifyCertificate] returns that result and no error. *)
Theorem VerifyCertificate_accepts_error_status :
  let api := SpiffeSDK.headlessAPI Demo.sdk in
  let W := Demo.world (Demo.service 500 "1spiffe://authsec.dev/intruder") [] in
  exists req resp result W',
    network W (sent W) req = Ok resp
    /\ Response.StatusCode resp = 500%Z
    /\ VerifyCertificate api (VerifyPayload.mk "pem") W = Some (Ok result, W')
    /\ sent W' = [req]
    /\ ValidationResult.Valid result = true
    /\ ValidationResult.SPIFFEID result = "spiffe://authsec.dev/intruder".
Proof.
  cbv zeta. eexists _, _, _, _.
  repeat apply conj.
  3: eapply VerifyCertificate_any_status; reflexivity.
  3: reflexivity.
  all: reflexivity.
Qed.

End OnTheDemoService.

(** * Further properties *)

Section MoreProperties.
Context {rt : GoRuntime}.

(** ** Strings *)

Lemma string_length_append s1 s2 :
  String.length (s1 ++ s2) = String.length s1 + String.length s2.
Proof. induction s1 as [|c s1 IH]; simpl; [reflexivity|now rewrite IH]. Qed.

Lemma substring_whole s : substring 0 (String.length s) s = s.
Proof. induction s as [|c s IH]; simpl; [reflexivity|now rewrite IH]. Qed.

Lemma substring_after p s :
  substring (String.length p) (String.length s) (p ++ s) = s.
Proof.
  induction p as [|c p IH]; simpl; [apply substring_whole|].
  exact IH.
Qed.

Lemma substring_split n : forall s,
  n <= String.length s ->
  exists p, s = p ++ substring n (String.length s - n) s.
Proof.
  induction n as [|n IH]; intros s Hn.
  - exists "". rewrite Nat.sub_0_r, substring_whole. reflexivity.
  - destruct s as [|c s]; simpl in Hn; [lia|].
    destruct (IH s ltac:(lia)) as [p Hp].
    exists (String c p). simpl. now rewrite <- Hp.
Qed.

Lemma string_app_assoc (a b c : string) : (a ++ b) ++ c = a ++ (b ++ c).
Proof. induction a as [|x a IH]; simpl; [reflexivity|now rewrite IH]. Qed.

(** Two ways to split one string: one prefix extends the other. *)
Lemma string_app_eq_app : forall (p d h t : string),
  p ++ d = h ++ t ->
  (exists x, h = p ++ x /\ d = x ++ t) \/ (exists x, p = h ++ x /\ t = x ++ d).
Proof.
  induction p as [|c p IH]; intros d h t H.
  - left. exists h. auto.
  - destruct h as [|c' h].
    + right. exists (String c p). auto.
    + simpl in H. injection H as -> H.
      destruct (IH _ _ _ H) as [(x & -> & ->)|(x & -> & ->)].
      * left. exists x. auto.
      * right. exists x. auto.
Qed.

Lemma hasSuffix_iff s suffix : hasSuffix s suffix = true <-> endsWith s suffix.
Proof.
  unfold hasSuffix, endsWith. rewrite andb_true_iff, Nat.leb_le, String.eqb_eq.
  split.
  - intros [Hlen Hsub].
    destruct (substring_split (String.length s - String.length suffix) s ltac:(lia))
      as [p Hp].
    exists p.
    replace (String.length s - (String.length s - String.length suffix))
      with (String.length suffix) in Hp by lia.
    now rewrite Hsub in Hp.
  - intros [p ->]. rewrite string_length_append. split; [lia|].
    replace (String.length p + String.length suffix - String.length suffix)
      with (String.length p) by lia.
    apply substring_after.
Qed.

(** X1.  [hasSuffix s suffix] holds exactly when [s] is some string followed
    by [suffix]; so every string has the empty string and itself as
    suffixes, and none has a suffix longer than itself. *)
Theorem hasSuffix_endsWith s suffix :
  (hasSuffix s suffix = true <-> exists p, s = p ++ suffix)
  /\ hasSuffix s "" = true
  /\ hasSuffix s s = true
  /\ (String.length s < String.length suffix -> hasSuffix s suffix = false).
Proof.
  split; [apply hasSuffix_iff|]. split; [|split].
  - apply hasSuffix_iff. exists s. clear.
    induction s as [|c s IH]; simpl; [reflexivity|now rewrite <- IH].
  - apply hasSuffix_iff. now exists "".
  - intros Hlt. unfold hasSuffix. apply Nat.leb_gt in Hlt. now rewrite Hlt.
Qed.

(** ** Transport router *)

Lemma firstByteIs_dot d : firstByteIs d "." = true <-> startsWithDot d.
Proof.
  unfold firstByteIs, startsWithDot. destruct d as [|c rest]; simpl.
  - split; [discriminate|]. now intros [rest' H].
  - rewrite Ascii.eqb_eq. split.
    + intros ->. now exists rest.
    + now intros [rest' [= -> _]].
Qed.

Lemma domainMatches_covers host d : domainMatches host d = true <-> ruleCovers host d.
Proof.
  unfold domainMatches, exactOrDotSuffix, bareDomain, ruleCovers.
  rewrite !orb_true_iff, !andb_true_iff, !orb_true_iff, negb_true_iff, !hasSuffix_iff,
    String.eqb_eq, !Nat.ltb_lt, firstByteIs_dot.
  assert (Hnot : firstByteIs d "." = false <-> ~ startsWithDot d).
  { rewrite <- firstByteIs_dot. destruct (firstByteIs d "."); split; congruence. }
  rewrite Hnot. split.
  - intros [[H|[[_ Hd] Hs]]|[[Hl Hd] [H|Hs]]]; auto.
  - intros [H|[[Hd Hs]|(Hl & Hd & Hs)]]; auto.
    left. right. repeat split; auto.
    destruct Hd as [rest ->]. simpl. lia.
Qed.

Lemma smartTransport_range_existsb t req host domains W :
  smartTransport_range t req host domains W =
  if existsb (domainMatches host) domains
  then smartTransport.mtlsTransport t req W
  else smartTransport.regularTransport t req W.
Proof.
  induction domains as [|domain rest IH]; simpl; [reflexivity|].
  unfold domainMatches at 1.
  destruct (exactOrDotSuffix host domain); simpl; [reflexivity|].
  destruct (bareDomain host domain); [reflexivity|exact IH].
Qed.

(** X2.  What the rules mean.  A request goes to the mutually-authenticated
    transport when its host equals some rule, or ends with a rule that
    starts with a dot, or ends with a dot followed by a rule of at least two
    bytes that starts with no dot; it goes to the regular transport when no
    rule does that, and so always when the rule list is empty. *)
Theorem smartTransport_RoundTrip_covers t req r l u W :
  heap W !! req = Some (ORequest r) ->
  Request.URL r = Some l ->
  heap W !! l = Some (OURL u) ->
  let host := destinationHost r u in
  let domains := smartTransport.internalDomains t in
  (Exists (ruleCovers host) domains ->
     smartTransport_RoundTrip t req W = smartTransport.mtlsTransport t req W)
  /\ (Forall (fun d => ~ ruleCovers host d) domains ->
     smartTransport_RoundTrip t req W = smartTransport.regularTransport t req W)
  /\ (domains = [] ->
     smartTransport_RoundTrip t req W = smartTransport.regularTransport t req W).
Proof.
  intros Hr Hl Hu host domains.
  rewrite (smartTransport_RoundTrip_range _ _ _ _ _ _ Hr Hl Hu),
    smartTransport_range_existsb.
  fold host. fold domains.
  assert (Hnone : Forall (fun d => ~ ruleCovers host d) domains ->
                  existsb (domainMatches host) domains = false).
  { intros Hall. destruct (existsb _ _) eqn:E; [|reflexivity].
    apply existsb_exists in E. destruct E as (d & Hin & Hd).
    rewrite Forall_forall in Hall. apply domainMatches_covers in Hd.
    exfalso. apply (Hall d); [|exact Hd]. now apply list_elem_of_In. }
  repeat split.
  - intros Hex. apply Exists_exists in Hex. destruct Hex as (d & Hin & Hd).
    replace (existsb (domainMatches host) domains) with true; [reflexivity|].
    symmetry. apply existsb_exists. exists d. split; [now apply list_elem_of_In|].
    now apply domainMatches_covers.
  - intros Hall. now rewrite (Hnone Hall).
  - intros Hnil. rewrite Hnone; [reflexivity|]. rewrite Hnil. constructor.
Qed.

(** X3.  The order of the rules and repetitions among them do not matter:
    two routers that differ only in their rule lists, with the same rules
    occurring in both, treat every request alike. *)
Theorem smartTransport_RoundTrip_same_rules t domains1 domains2 req W :
  (forall d, In d domains1 <-> In d domains2) ->
  smartTransport_RoundTrip (withDomains t domains1) req W =
  smartTransport_RoundTrip (withDomains t domains2) req W.
Proof.
  intros Hsame. unfold smartTransport_RoundTrip, bind.
  destruct (loadRequest req W) as [[r W1]|]; [|reflexivity].
  destruct (loadURL (Request.URL r) W1) as [[u W2]|]; [|reflexivity].
  rewrite !smartTransport_range_existsb. cbn.
  replace (existsb (domainMatches (if String.eqb (URL.Host u) "" then Request.Host r
                                   else URL.Host u)) domains2)
    with (existsb (domainMatches (if String.eqb (URL.Host u) "" then Request.Host r
                                  else URL.Host u)) domains1); [reflexivity|].
  apply eq_true_iff_eq. rewrite !existsb_exists.
  split; intros (d & Hin & Hd); exists d; (split; [now apply Hsame|exact Hd]).
Qed.

Lemma ruleCovers_port h port d :
  ~ hasByte ":" d -> ~ hasByte "." port ->
  ~ ruleCovers (h ++ String ":" port) d.
Proof.
  intros Hcolon Hdot [Heq|[[[rest ->] [p Hp]]|(_ & _ & [p Hp])]].
  - apply Hcolon. now exists h, port.
  - destruct (string_app_eq_app _ _ _ _ (eq_sym Hp)) as [(x & _ & Hd)|(x & _ & Ht)].
    + destruct x as [|c x]; simpl in Hd; [discriminate Hd|].
      apply Hcolon. exists (String c x), port. exact Hd.
    + destruct x as [|c x]; simpl in Ht; [discriminate Ht|].
      injection Ht as _ Ht. apply Hdot. now exists x, rest.
  - destruct (string_app_eq_app _ _ _ _ (eq_sym Hp)) as [(x & _ & Hd)|(x & _ & Ht)].
    + destruct x as [|c x]; simpl in Hd; [discriminate Hd|].
      injection Hd as _ Hd. apply Hcolon. now exists x, port.
    + destruct x as [|c x]; simpl in Ht; [discriminate Ht|].
      injection Ht as _ Ht. apply Hdot. now exists x, d.
Qed.

(** X4.  The router compares the rules with [req.URL.Host] as it is, port
    included.  A host that carries a port, [name:port] with no dot in the
    port, is covered by no rule that is free of colons; with such rules a
    request to it always goes to the regular transport, whatever its
    name. *)
Theorem smartTransport_RoundTrip_port t req r l u W name port :
  heap W !! req = Some (ORequest r) ->
  Request.URL r = Some l ->
  heap W !! l = Some (OURL u) ->
  destinationHost r u = name ++ String ":" port ->
  ~ hasByte "." port ->
  Forall (fun d => ~ hasByte ":" d) (smartTransport.internalDomains t) ->
  smartTransport_RoundTrip t req W = smartTransport.regularTransport t req W.
Proof.
  intros Hr Hl Hu Hhost Hport Hrules.
  rewrite (smartTransport_RoundTrip_range _ _ _ _ _ _ Hr Hl Hu),
    smartTransport_range_existsb, Hhost.
  destruct (existsb _ _) eqn:E; [|reflexivity].
  apply existsb_exists in E. destruct E as (d & Hin & Hd).
  apply domainMatches_covers in Hd. exfalso.
  rewrite Forall_forall in Hrules.
  apply (ruleCovers_port name port d); [|exact Hport|exact Hd].
  apply Hrules. now apply list_elem_of_In.
Qed.

(** ** Issuance client *)

Lemma http_NewRequest_Ok method url body req :
  http_NewRequest method url body = Ok req ->
  Outbound.Method req = method /\ Outbound.Header req = [] /\ Outbound.Body req = body
  /\ url_Parse url = Ok (Outbound.URL req).
Proof.
  unfold http_NewRequest. destruct (url_Parse url) as [u|e]; [|discriminate].
  intros [= <-]. auto.
Qed.

(** A successful issuance, step by step. *)
Lemma GetOrRefreshSVID_Ok api spiffeID W svid W' :
  GetOrRefreshSVID api spiffeID W = Some (Ok svid, W') ->
  exists lookup lookupResp issue issueResp,
    http_NewRequest "GET"
      (HeadlessAPI.BaseURL api ++ "/spiresvc/api/v1/workloads?spiffe_id=" ++ spiffeID)
      None = Ok lookup
    /\ network W (sent W) lookup = Ok lookupResp
    /\ Outbound.Method issue = "POST"
    /\ network W (sent W ++ [lookup])%list issue = Ok issueResp
    /\ json_Decode_SVIDResponse (Response.Body issueResp) = Ok svid
    /\ W' = afterSending [lookup; issue] W.
Proof.
  unfold GetOrRefreshSVID.
  destruct (http_NewRequest "GET" _ _) as [lookup|e] eqn:Hlookup; [|discriminate].
  unfold bind at 1. rewrite Do_afterSending.
  destruct (network W (sent W) lookup) as [lookupResp|e] eqn:Hnet1; [|discriminate].
  destruct (negb _); [discriminate|].
  destruct (json_Decode_WorkloadResp _) as [workloadResp|e]; [|discriminate].
  destruct (WorkloadResp.Workloads workloadResp) as [|first rest]; [discriminate|].
  destruct (http_NewRequest "POST" _ _) as [issue|e] eqn:Hissue; [|discriminate].
  unfold bind. rewrite Do_afterSending, (afterSending_app [lookup] [issue]).
  destruct (network (afterSending [lookup] W) _ issue) as [issueResp|e] eqn:Hnet2;
    [|discriminate].
  destruct (negb _); [discriminate|].
  destruct (json_Decode_SVIDResponse _) as [svid0|e] eqn:Hdec; [|discriminate].
  unfold ret. intros H. simplify_eq.
  exists lookup, lookupResp, issue, issueResp.
  repeat split; try assumption.
  now destruct (http_NewRequest_Ok _ _ _ _ Hissue).
Qed.

Lemma refreshSVID_Ok s W s' W' :
  refreshSVID s W = Some ((None, s'), W') ->
  exists lookup lookupResp issue issueResp svid,
    http_NewRequest "GET"
      (HeadlessAPI.BaseURL (SpiffeSDK.headlessAPI s)
         ++ "/spiresvc/api/v1/workloads?spiffe_id=" ++ Config.SPIFFEID (SpiffeSDK.config s))
      None = Ok lookup
    /\ network W (sent W) lookup = Ok lookupResp
    /\ Outbound.Method issue = "POST"
    /\ network W (sent W ++ [lookup])%list issue = Ok issueResp
    /\ json_Decode_SVIDResponse (Response.Body issueResp) = Ok svid
    /\ W' = afterSending [lookup; issue] W
    /\ s' = SpiffeSDK.set_currentSVID s
              (SVIDCache.mk (SVIDResponse.X509SVID svid) (SVIDResponse.PrivateKey svid)
                            (SVIDResponse.Bundle svid) (SVIDResponse.ExpiresAt svid)
                            (SVIDResponse.IssuedAt svid)).
Proof.
  unfold refreshSVID, bind.
  destruct (GetOrRefreshSVID _ _ W) as [[[svid|e] W1]|] eqn:Hget; try discriminate.
  unfold ret. intros H. simplify_eq.
  destruct (GetOrRefreshSVID_Ok _ _ _ _ _ Hget)
    as (lookup & lookupResp & issue & issueResp & H1 & H2 & H3 & H4 & H5 & H6).
  exists lookup, lookupResp, issue, issueResp, svid. auto 10.
Qed.

(** X5.  When the lookup is answered with 200 and an empty list of
    workloads, [refreshSVID] returns the error "workload not found" for the
    configured SPIFFE ID, leaves the SDK as it was, and has sent the lookup
    and nothing else: no issuance is requested. *)
Theorem refreshSVID_no_workload s W lookup resp workloadResp :
  http_NewRequest "GET"
    (HeadlessAPI.BaseURL (SpiffeSDK.headlessAPI s)
       ++ "/spiresvc/api/v1/workloads?spiffe_id=" ++ Config.SPIFFEID (SpiffeSDK.config s))
    None = Ok lookup ->
  network W (sent W) lookup = Ok resp ->
  Response.StatusCode resp = StatusOK ->
  json_Decode_WorkloadResp (Response.Body resp) = Ok workloadResp ->
  WorkloadResp.Workloads workloadResp = [] ->
  refreshSVID s W =
    Some ((Some (Errorf "workload not found for SPIFFE ID: %s"
                        [argString (Config.SPIFFEID (SpiffeSDK.config s))]), s),
          afterSending [lookup] W)
  /\ sent (afterSending [lookup] W) = (sent W ++ [lookup])%list.
Proof.
  intros Hl Hn Hs Hd Hw. split; [|reflexivity].
  unfold refreshSVID, GetOrRefreshSVID. rewrite Hl.
  unfold bind. rewrite Do_afterSending, Hn, Hs, Z.eqb_refl. cbn [negb].
  now rewrite Hd, Hw.
Qed.

(** X6.  [registerWithHeadlessAPI] returns no error exactly when the service
    answers 201 to one POST of the payload built from the configuration: the
    SPIFFE ID, the service type, and as selectors the namespace, the service
    account and then one selector per pod label.  The body of the answer
    plays no part. *)
Theorem registerWithHeadlessAPI_success s W W' :
  let c := SpiffeSDK.config s in
  let payload :=
    RegisterPayload.mk (Config.SPIFFEID c) (Config.ServiceType c)
      (app ["k8s:ns:" ++ Config.Namespace c; "k8s:sa:" ++ Config.ServiceAccount c]
           (map (fun kv => "k8s:pod-label:" ++ fst kv ++ ":" ++ snd kv)
                (Config.PodLabels c))) in
  registerWithHeadlessAPI s W = Some (None, W') <->
  exists jsonData req resp,
    json_Marshal_register payload = Ok jsonData
    /\ http_NewRequest "POST"
         (HeadlessAPI.BaseURL (SpiffeSDK.headlessAPI s)
            ++ "/spiresvc/api/v1/workloads/register-and-issue")
         (Some jsonData) = Ok req
    /\ network W (sent W) (Outbound.setHeader req "Content-Type" "application/json") = Ok resp
    /\ Response.StatusCode resp = StatusCreated
    /\ W' = afterSending [Outbound.setHeader req "Content-Type" "application/json"] W.
Proof.
  cbv zeta. unfold registerWithHeadlessAPI, RegisterAndIssueSVID. cbv zeta.
  destruct (json_Marshal_register _) as [jsonData|e].
  2:{ split; [discriminate|]. intros (j & q & p & Hj & _). discriminate Hj. }
  destruct (http_NewRequest _ _ _) as [req|e] eqn:Hreq.
  2:{ split; [discriminate|]. intros (j & q & p & Hj & Hq & _).
      injection Hj as <-. rewrite Hreq in Hq. discriminate Hq. }
  unfold bind. rewrite Do_afterSending.
  destruct (network W (sent W) _) as [resp|e] eqn:Hn.
  2:{ split; [discriminate|]. intros (j & q & p & Hj & Hq & H & _).
      injection Hj as <-. rewrite Hreq in Hq. injection Hq as <-.
      rewrite Hn in H. discriminate H. }
  destruct (Response.StatusCode resp =? StatusCreated)%Z eqn:Hs; cbn [negb]; unfold ret.
  - apply Z.eqb_eq in Hs. split.
    + intros [= <-]. exists jsonData, req, resp. auto.
    + intros (j & q & p & Hj & Hq & H & _ & ->).
      injection Hj as <-. rewrite Hreq in Hq. injection Hq as <-. reflexivity.
  - apply Z.eqb_neq in Hs. split; [discriminate|].
    intros (j & q & p & Hj & Hq & H & Hc & _).
    injection Hj as <-. rewrite Hreq in Hq. injection Hq as <-.
    rewrite Hn in H. injection H as <-. contradiction.
Qed.


(** ** Lifecycle *)

Lemma refreshSVID_frame s W e s' W' :
  refreshSVID s W = Some ((e, s'), W') ->
  SpiffeSDK.config s' = SpiffeSDK.config s
  /\ SpiffeSDK.headlessAPI s' = SpiffeSDK.headlessAPI s
  /\ SpiffeSDK.workloadAPI s' = SpiffeSDK.workloadAPI s
  /\ SpiffeSDK.tlsConfig s' = SpiffeSDK.tlsConfig s
  /\ exists new, W' = afterSending new W /\ (length new <= 2)%nat.
Proof.
  destruct (refreshSVID_runs s W) as (e1 & s1 & new & Hrun & Hone & Hs).
  rewrite Hrun. intros H. simplify_eq.
  assert (Hlen : (length new <= 2)%nat).
  { destruct Hone as [->|[(l & -> & _)|(l & i & -> & _)]]; simpl; lia. }
  destruct e as [err|].
  - subst. repeat split. eauto.
  - destruct Hs as (svid & hist & req & resp & _ & _ & ->). repeat split. eauto.
Qed.

Lemma initWorkloadAPI_eq s W :
  initWorkloadAPI s W =
  Some (match agent W (agentCalls W) ("unix://" ++ Config.SocketPath (SpiffeSDK.config s)) with
        | Ok source => (None, SpiffeSDK.set_workloadAPI s (Some source))
        | Err err => (Some err, s)
        end,
        set_agentCalls (S (agentCalls W)) W).
Proof.
  unfold initWorkloadAPI, workloadapi_NewX509Source, bind.
  destruct (agent W (agentCalls W) _); reflexivity.
Qed.

(** The SDK after step 3 of [Initialize]. *)
Lemma Initialize_steps s W :
  exists e0 newR,
    registerWithHeadlessAPI s W = Some (e0, afterSending newR W)
    /\ match e0 with
       | Some err =>
         Initialize s W =
         Some ((Some (Errorf "registration failed: %w" [argError err]), s, false),
               afterSending newR W)
       | None =>
         exists s1 W1 e2 s2 W2,
           match SpiffeSDK.workloadAPI s with
           | Some _ => s1 = s /\ W1 = afterSending newR W
           | None =>
             exists e1, initWorkloadAPI s (afterSending newR W) = Some ((e1, s1), W1)
           end
           /\ refreshSVID s1 W1 = Some ((e2, s2), W2)
           /\ match e2 with
              | Some err =>
                Initialize s W =
                Some ((Some (Errorf "initial SVID fetch failed: %w" [argError err]),
                       s2, false), W2)
              | None =>
                Initialize s W =
                Some ((None,
                       match SpiffeSDK.workloadAPI s2 with
                       | Some _ =>
                         SpiffeSDK.set_tlsConfig s2
                           (Some (MTLSClientConfig (SpiffeSDK.workloadAPI s2)
                                                   (SpiffeSDK.workloadAPI s2)))
                       | None => s2
                       end, true), W2)
              end
       end.
Proof.
  destruct (RegisterAndIssueSVID_runs (SpiffeSDK.headlessAPI s)
              (RegisterPayload.mk (Config.SPIFFEID (SpiffeSDK.config s))
                 (Config.ServiceType (SpiffeSDK.config s))
                 (app ["k8s:ns:" ++ Config.Namespace (SpiffeSDK.config s);
                       "k8s:sa:" ++ Config.ServiceAccount (SpiffeSDK.config s)]
                      (map (fun kv => "k8s:pod-label:" ++ fst kv ++ ":" ++ snd kv)
                           (Config.PodLabels (SpiffeSDK.config s))))) W)
    as (e0 & newR & Hreg).
  exists e0, newR. split; [exact Hreg|].
  unfold Initialize. change (registerWithHeadlessAPI s W = Some (e0, afterSending newR W)) in Hreg.
  rewrite (bind_Some _ _ _ _ _ Hreg).
  destruct e0 as [err|]; [reflexivity|].
  destruct (SpiffeSDK.workloadAPI s) as [src|] eqn:Hw.
  - destruct (refreshSVID_runs s (afterSending newR W)) as (e2 & s2 & new & Hrun & _ & _).
    exists s, (afterSending newR W), e2, s2, (afterSending new (afterSending newR W)).
    split; [auto|]. split; [exact Hrun|].
    destruct e2; unfold bind, ret; rewrite Hrun; cbn [fst snd]; [reflexivity|].
    unfold setupTLSConfig. destruct (SpiffeSDK.workloadAPI s2); reflexivity.
  - pose proof (initWorkloadAPI_eq s (afterSending newR W)) as Hi.
    set (r1 := match agent (afterSending newR W) _ _ with
               | Ok source => _ | Err err => _ end) in Hi.
    set (W1 := set_agentCalls _ _) in Hi.
    destruct (refreshSVID_runs (snd r1) W1) as (e2 & s2 & new & Hrun & _ & _).
    exists (snd r1), W1, e2, s2, (afterSending new W1).
    split; [exists (fst r1); now destruct r1|]. split; [exact Hrun|].
    destruct e2; unfold bind, ret; rewrite Hi; cbv beta iota; rewrite Hrun;
      cbn [fst snd]; [reflexivity|].
    unfold setupTLSConfig. destruct (SpiffeSDK.workloadAPI s2); reflexivity.
Qed.

(** What [Initialize] does to the SDK and to the world, in every case. *)
Lemma Initialize_outcome s W :
  exists e s' started W',
    Initialize s W = Some ((e, s', started), W')
    /\ (started = true <-> e = None)
    /\ SpiffeSDK.config s' = SpiffeSDK.config s
    /\ SpiffeSDK.headlessAPI s' = SpiffeSDK.headlessAPI s
    /\ (e = None ->
        SpiffeSDK.tlsConfig s' =
        match SpiffeSDK.workloadAPI s' with
        | Some src => Some (MTLSClientConfig (Some src) (Some src))
        | None => SpiffeSDK.tlsConfig s
        end)
    /\ (e <> None -> SpiffeSDK.tlsConfig s' = SpiffeSDK.tlsConfig s)
    /\ (SpiffeSDK.workloadAPI s <> None ->
        SpiffeSDK.workloadAPI s' = SpiffeSDK.workloadAPI s /\ agentCalls W' = agentCalls W)
    /\ (SpiffeSDK.workloadAPI s = None ->
        (agentCalls W' <= agentCalls W + 1)%nat
        /\ (agentDown W -> SpiffeSDK.workloadAPI s' = None))
    /\ agent W' = agent W /\ network W' = network W /\ heap W' = heap W
    /\ replies W' = replies W /\ stdout W' = stdout W.
Proof.
  destruct (Initialize_steps s W) as (e0 & newR & _ & Hcase).
  destruct e0 as [err|].
  { eexists _, _, _, _. split; [exact Hcase|].
    repeat split; intros; cbn; try discriminate; try congruence; try lia. }
  destruct Hcase as (s1 & W1 & e2 & s2 & W2 & Hagent & Hrun & Hend).
  destruct (refreshSVID_frame _ _ _ _ _ Hrun) as (Hc & Hh & Hw & Ht & new & -> & _).
  assert (Hs1 : SpiffeSDK.config s1 = SpiffeSDK.config s
                /\ SpiffeSDK.headlessAPI s1 = SpiffeSDK.headlessAPI s
                /\ SpiffeSDK.tlsConfig s1 = SpiffeSDK.tlsConfig s
                /\ (SpiffeSDK.workloadAPI s <> None ->
                    SpiffeSDK.workloadAPI s1 = SpiffeSDK.workloadAPI s
                    /\ agentCalls W1 = agentCalls W)
                /\ (SpiffeSDK.workloadAPI s = None ->
                    (agentCalls W1 <= agentCalls W + 1)%nat
                    /\ (agentDown W -> SpiffeSDK.workloadAPI s1 = None))
                /\ agent W1 = agent W /\ network W1 = network W /\ heap W1 = heap W
                /\ replies W1 = replies W /\ stdout W1 = stdout W).
  { destruct (SpiffeSDK.workloadAPI s) as [src|] eqn:Hsrc.
    - destruct Hagent as [-> ->].
      repeat split; intros; cbn; try discriminate; try congruence; try lia.
    - destruct Hagent as [e1 Hi]. rewrite initWorkloadAPI_eq in Hi.
      injection Hi as Hr <-. cbn.
      destruct (agent W (agentCalls W) _) as [source|e] eqn:Hag;
        injection Hr as <- <-;
        repeat split; intros; cbn; try discriminate; try congruence; try lia.
      match goal with Hd : agentDown W |- _ =>
        destruct (Hd (agentCalls W)
          ("unix://" ++ Config.SocketPath (SpiffeSDK.config s))) as [e' He'] end.
      cbn in He'. congruence. }
  destruct Hs1 as (Hc1 & Hh1 & Ht1 & Hsome & Hnone & Ha & Hn & Hhp & Hrp & Hso).
  assert (Hsome' : SpiffeSDK.workloadAPI s <> None ->
                   SpiffeSDK.workloadAPI s2 = SpiffeSDK.workloadAPI s
                   /\ agentCalls (afterSending new W1) = agentCalls W).
  { intros H. destruct (Hsome H). split; [congruence|assumption]. }
  assert (Hnone' : SpiffeSDK.workloadAPI s = None ->
                   (agentCalls (afterSending new W1) <= agentCalls W + 1)%nat
                   /\ (agentDown W -> SpiffeSDK.workloadAPI s2 = None)).
  { intros H. destruct (Hnone H) as [H1 H2]. split; [exact H1|].
    intros Hd. rewrite Hw. auto. }
  destruct e2 as [err|].
  - eexists _, _, _, _. split; [exact Hend|].
    split; [split; discriminate|].
    repeat (split; [first [congruence | exact Hsome' | exact Hnone' | discriminate]|]).
    repeat split; assumption.
  - set (s3 := match SpiffeSDK.workloadAPI s2 with
               | Some _ =>
                 SpiffeSDK.set_tlsConfig s2
                   (Some (MTLSClientConfig (SpiffeSDK.workloadAPI s2)
                                           (SpiffeSDK.workloadAPI s2)))
               | None => s2
               end) in Hend.
    assert (H3 : SpiffeSDK.config s3 = SpiffeSDK.config s2
                 /\ SpiffeSDK.headlessAPI s3 = SpiffeSDK.headlessAPI s2
                 /\ SpiffeSDK.workloadAPI s3 = SpiffeSDK.workloadAPI s2
                 /\ SpiffeSDK.tlsConfig s3 =
                    match SpiffeSDK.workloadAPI s2 with
                    | Some src => Some (MTLSClientConfig (Some src) (Some src))
                    | None => SpiffeSDK.tlsConfig s2
                    end).
    { subst s3. destruct (SpiffeSDK.workloadAPI s2) eqn:E; cbn; rewrite ?E; auto. }
    destruct H3 as (Hc3 & Hh3 & Hw3 & Ht3).
    exists None, s3, true, (afterSending new W1). split; [exact Hend|].
    split; [split; reflexivity|].
    split; [congruence|]. split; [congruence|].
    split; [intros _; rewrite Ht3, Hw3; destruct (SpiffeSDK.workloadAPI s2); congruence|].
    split; [intros H; now contradiction H|].
    split; [intros H; destruct (Hsome' H); split; [congruence|assumption]|].
    split; [intros H; destruct (Hnone' H) as [H1 H2]; split;
            [assumption|intros Hd; rewrite Hw3; auto]|].
    repeat split; assumption.
Qed.

Lemma registerWithHeadlessAPI_Ok s W W' :
  registerWithHeadlessAPI s W = Some (None, W') ->
  exists register resp,
    Outbound.Method register = "POST"
    /\ network W (sent W) register = Ok resp
    /\ Response.StatusCode resp = StatusCreated
    /\ W' = afterSending [register] W.
Proof.
  unfold registerWithHeadlessAPI, RegisterAndIssueSVID. cbv zeta.
  destruct (json_Marshal_register _) as [jsonData|e]; [|discriminate].
  destruct (http_NewRequest _ _ _) as [req|e] eqn:Hreq; [|discriminate].
  unfold bind. rewrite Do_afterSending.
  destruct (network W (sent W) _) as [resp|e] eqn:Hn; [|discriminate].
  destruct (Response.StatusCode resp =? StatusCreated)%Z eqn:Hs; [|discriminate].
  unfold ret. intros [= <-]. apply Z.eqb_eq in Hs.
  exists (Outbound.setHeader req "Content-Type" "application/json"), resp.
  repeat split; [|exact Hn|exact Hs].
  cbn. now destruct (http_NewRequest_Ok _ _ _ _ Hreq).
Qed.

(** X7.  [Initialize] always returns, and it starts the renewal loop exactly
    when it returns no error.  Whatever the outcome, it keeps the
    configuration, prints nothing and writes no HTTP reply. *)
Theorem Initialize_starts_renewal_on_success s W :
  exists e s' started W',
    Initialize s W = Some ((e, s', started), W')
    /\ (started = true <-> e = None)
    /\ SpiffeSDK.config s' = SpiffeSDK.config s
    /\ heap W' = heap W /\ replies W' = replies W /\ stdout W' = stdout W.
Proof.
  destruct (Initialize_outcome s W)
    as (e & s' & started & W' & Hrun & Hiff & Hc & _ & _ & _ & _ & _ & _ & _ & Hh & Hr & Ho).
  exists e, s', started, W'. auto 10.
Qed.

(** X8.  A successful [Initialize] has sent exactly three requests, in this
    order: the registration POST, the lookup GET and the issuance POST; the
    store then holds the credential decoded from the answer to the third,
    which is what [GetCurrentSVID] returns. *)
Theorem Initialize_success_requests s W s' started W' :
  Initialize s W = Some ((None, s', started), W') ->
  exists register lookup issue issueResp svid,
    sent W' = (sent W ++ [register; lookup; issue])%list
    /\ Outbound.Method register = "POST"
    /\ Outbound.Method lookup = "GET"
    /\ Outbound.Method issue = "POST"
    /\ network W (sent W ++ [register; lookup])%list issue = Ok issueResp
    /\ json_Decode_SVIDResponse (Response.Body issueResp) = Ok svid
    /\ GetCurrentSVID s' = SVIDResponse.X509SVID svid
    /\ SpiffeSDK.currentSVID s' =
       SVIDCache.mk (SVIDResponse.X509SVID svid) (SVIDResponse.PrivateKey svid)
                    (SVIDResponse.Bundle svid) (SVIDResponse.ExpiresAt svid)
                    (SVIDResponse.IssuedAt svid).
Proof.
  intros Hinit.
  destruct (Initialize_steps s W) as (e0 & newR & Hreg & Hcase).
  destruct e0 as [err|]; [rewrite Hcase in Hinit; discriminate|].
  destruct Hcase as (s1 & W1 & e2 & s2 & W2 & Hagent & Hrun & Hend).
  destruct e2 as [err|]; [rewrite Hend in Hinit; discriminate|].
  rewrite Hend in Hinit. injection Hinit as <- _ <-.
  destruct (registerWithHeadlessAPI_Ok _ _ _ Hreg) as (register & resp & Hm & _ & _ & HW).
  assert (HW1 : sent W1 = (sent W ++ [register])%list /\ network W1 = network W).
  { destruct (SpiffeSDK.workloadAPI s).
    - destruct Hagent as [_ ->]. rewrite HW. split; reflexivity.
    - destruct Hagent as [e1 Hi]. rewrite initWorkloadAPI_eq in Hi.
      injection Hi as _ <-. rewrite HW. split; reflexivity. }
  destruct HW1 as [Hsent Hnet].
  destruct (refreshSVID_Ok _ _ _ _ Hrun)
    as (lookup & lookupResp & issue & issueResp & svid & Hl & _ & Hpost & Hn & Hd & -> & ->).
  exists register, lookup, issue, issueResp, svid.
  assert (Hcur : forall s0 : SpiffeSDK.t,
            SpiffeSDK.currentSVID
              (match SpiffeSDK.workloadAPI s0 with
               | Some _ =>
                 SpiffeSDK.set_tlsConfig s0
                   (Some (MTLSClientConfig (SpiffeSDK.workloadAPI s0)
                                           (SpiffeSDK.workloadAPI s0)))
               | None => s0
               end) = SpiffeSDK.currentSVID s0).
  { intros s0. destruct (SpiffeSDK.workloadAPI s0); reflexivity. }
  repeat split.
  - cbn. rewrite Hsent, <- app_assoc. reflexivity.
  - exact Hm.
  - now destruct (http_NewRequest_Ok _ _ _ _ Hl).
  - exact Hpost.
  - rewrite Hnet, Hsent, <- app_assoc in Hn. exact Hn.
  - exact Hd.
  - unfold GetCurrentSVID. rewrite Hcur. reflexivity.
  - rewrite Hcur. reflexivity.
Qed.

(** X9.  Without a SPIRE agent the SDK works on the headless API alone, and
    then it never has a TLS configuration: [NewSpiffeSDK] still returns an
    SDK, and after [Initialize], whether it succeeds or not, [tlsConfig] is
    nil, so the transport of [GetHTTPClient] and the "mTLS" transport of
    [NewInternalHTTPClient] are built over a nil TLS configuration. *)
Theorem headless_only_has_no_TLS_config cfg W :
  agentDown W ->
  exists sdk W1,
    NewSpiffeSDK cfg W = Some (Ok sdk, W1)
    /\ sent W1 = sent W
    /\ forall e s' started W',
         Initialize sdk W1 = Some ((e, s', started), W') ->
         SpiffeSDK.workloadAPI s' = None
         /\ SpiffeSDK.tlsConfig s' = None
         /\ HTTPClient.Transport (GetHTTPClient s') = http_Transport None
         /\ forall domains,
              smartTransport.mtlsTransport (NewInternalHTTPClient s' domains)
              = http_Transport None.
Proof.
  intros Hdown.
  destruct (Hdown (agentCalls W) ("unix://" ++ Config.SocketPath cfg)) as [err Herr].
  eexists _, _. split.
  { unfold NewSpiffeSDK. rewrite (bind_Some _ _ _ _ _ (initWorkloadAPI_eq _ _)).
    cbn [SpiffeSDK.config]. rewrite Herr. reflexivity. }
  split; [reflexivity|].
  intros e s' started W' Hinit.
  destruct (Initialize_outcome
              (SpiffeSDK.mk cfg
                 (HeadlessAPI.mk (Config.HeadlessAPIURL cfg) (Client.mk (10 * 1000000000)%Z))
                 None SVIDCache.zero None)
              (set_agentCalls (S (agentCalls W)) W))
    as (e1 & s1 & st1 & W1 & Hrun & _ & _ & _ & Hok & Hfail & _ & Hnone & _).
  cbn [snd] in Hinit. rewrite Hrun in Hinit. injection Hinit as <- <- <- <-.
  destruct (Hnone eq_refl) as [_ Hw]. specialize (Hw Hdown).
  assert (Ht : SpiffeSDK.tlsConfig s1 = None).
  { destruct e1 as [x|].
    - apply Hfail. discriminate.
    - rewrite (Hok eq_refl), Hw. reflexivity. }
  repeat split; try assumption.
  - unfold GetHTTPClient. cbn. now rewrite Ht.
  - intros domains. unfold NewInternalHTTPClient. cbn. now rewrite Ht.
Qed.

(** X10.  When the SDK already holds an X.509 source, a successful
    [Initialize] builds the TLS configuration from that source, keeps the
    source, and does not contact the agent again. *)
Theorem Initialize_with_source s src W s' started W' :
  SpiffeSDK.workloadAPI s = Some src ->
  Initialize s W = Some ((None, s', started), W') ->
  SpiffeSDK.tlsConfig s' = Some (MTLSClientConfig (Some src) (Some src))
  /\ SpiffeSDK.workloadAPI s' = Some src
  /\ agentCalls W' = agentCalls W.
Proof.
  intros Hsrc Hinit.
  destruct (Initialize_outcome s W)
    as (e1 & s1 & st1 & W1 & Hrun & _ & _ & _ & Hok & _ & Hsome & _).
  rewrite Hrun in Hinit. injection Hinit as -> <- _ <-.
  destruct Hsome as [Hw Ha]; [congruence|].
  rewrite (Hok eq_refl), Hw, Hsrc. auto.
Qed.

(** X11.  [Initialize] does not look at the renewal settings.  With a check
    interval that is zero or negative, as in a configuration that leaves it
    unset, [Initialize] can succeed and start the renewal loop; that loop
    then panics in [time.NewTicker] before its first tick, whatever events
    would follow. *)
Theorem unset_CheckInterval_panics s W s' W' events Wl :
  (Config.CheckInterval (SpiffeSDK.config s) <= 0)%Z ->
  Initialize s W = Some ((None, s', true), W') ->
  startAutoRenewal s' events Wl = None.
Proof.
  intros Hle Hinit.
  destruct (Initialize_outcome s W) as (e1 & s1 & st1 & W1 & Hrun & _ & Hc & _).
  rewrite Hrun in Hinit. injection Hinit as _ <- _ _.
  unfold startAutoRenewal. rewrite Hc. apply Z.leb_le in Hle. now rewrite Hle.
Qed.

(** ** Renewal loop *)

Lemma renewalTick_account s now W :
  exists s' W',
    renewalTick s now W = Some (s', W')
    /\ SpiffeSDK.config s' = SpiffeSDK.config s
    /\ SpiffeSDK.headlessAPI s' = SpiffeSDK.headlessAPI s
    /\ SpiffeSDK.workloadAPI s' = SpiffeSDK.workloadAPI s
    /\ SpiffeSDK.tlsConfig s' = SpiffeSDK.tlsConfig s
    /\ heap W' = heap W /\ replies W' = replies W /\ agentCalls W' = agentCalls W
    /\ (length (sent W') <= length (sent W) + 2)%nat
    /\ (length (stdout W') <= length (stdout W) + 1)%nat.
Proof.
  destruct (Z.le_gt_cases
              (time_Until (SVIDCache.ExpiresAt (SpiffeSDK.currentSVID s)) now)
              (Config.RenewalThreshold (SpiffeSDK.config s))) as [Hdue|Hidle].
  - destruct (refreshSVID s W) as [[[e s'] W1]|] eqn:Hrun.
    2:{ destruct (refreshSVID_runs s W) as (? & ? & ? & H & _). congruence. }
    destruct (refreshSVID_frame _ _ _ _ _ Hrun) as (Hc & Hh & Hw & Ht & new & -> & Hlen).
    eexists _, _. split; [exact (renewalTick_due _ _ _ _ _ _ Hdue Hrun)|].
    cbn. rewrite !length_app. cbn. repeat split; try assumption; lia.
  - exists s, W. rewrite (renewalTick_idle _ _ _ Hidle). repeat split; lia.
Qed.

Lemma renewalLoop_account events : forall s W,
  exists s' W',
    renewalLoop s events W = Some ((s', cancelled events), W')
    /\ SpiffeSDK.config s' = SpiffeSDK.config s
    /\ SpiffeSDK.headlessAPI s' = SpiffeSDK.headlessAPI s
    /\ SpiffeSDK.workloadAPI s' = SpiffeSDK.workloadAPI s
    /\ SpiffeSDK.tlsConfig s' = SpiffeSDK.tlsConfig s
    /\ heap W' = heap W /\ replies W' = replies W /\ agentCalls W' = agentCalls W
    /\ (length (sent W') <= length (sent W) + 2 * length events)%nat
    /\ (length (stdout W') <= length (stdout W) + length events)%nat.
Proof.
  induction events as [|[|now] rest IH]; intros s W.
  - exists s, W. cbn. repeat split; lia.
  - exists s, W. cbn. repeat split; lia.
  - destruct (renewalTick_account s now W)
      as (s1 & W1 & Htick & Hc & Hh & Hw & Ht & Hhp & Hr & Ha & Hs & Ho).
    destruct (IH s1 W1) as (s2 & W2 & Hloop & Hc2 & Hh2 & Hw2 & Ht2 & Hhp2 & Hr2 & Ha2 & Hs2 & Ho2).
    exists s2, W2. cbn [renewalLoop cancelled]. rewrite (bind_Some _ _ _ _ _ Htick).
    split; [exact Hloop|]. cbn [length]. repeat split; try congruence; lia.
Qed.

(** X12.  The renewal loop changes nothing of the SDK but the stored
    credential: configuration, API client, X.509 source and TLS
    configuration are as before after any sequence of events; in particular
    a renewed credential never leads to a new TLS configuration.  The loop
    does not touch request objects or HTTP replies and never contacts the
    agent. *)
Theorem renewalLoop_keeps_TLS_config s events W :
  exists s' b W',
    renewalLoop s events W = Some ((s', b), W')
    /\ SpiffeSDK.config s' = SpiffeSDK.config s
    /\ SpiffeSDK.headlessAPI s' = SpiffeSDK.headlessAPI s
    /\ SpiffeSDK.workloadAPI s' = SpiffeSDK.workloadAPI s
    /\ SpiffeSDK.tlsConfig s' = SpiffeSDK.tlsConfig s
    /\ heap W' = heap W /\ replies W' = replies W /\ agentCalls W' = agentCalls W.
Proof.
  destruct (renewalLoop_account events s W)
    as (s' & W' & Hloop & Hc & Hh & Hw & Ht & Hhp & Hr & Ha & _).
  exists s', (cancelled events), W'. auto 10.
Qed.

(** X13.  The loop returns exactly when cancellation is among the events it
    receives, and what follows the cancellation has no effect: ticks after
    it are not served. *)
Theorem renewalLoop_stops_at_cancellation s events W :
  (exists s' W', renewalLoop s events W = Some ((s', cancelled events), W'))
  /\ (cancelled events = true <-> In ctxDone events)
  /\ forall pre post,
       events = (pre ++ ctxDone :: post)%list ->
       renewalLoop s events W = renewalLoop s (pre ++ [ctxDone])%list W.
Proof.
  split; [|split].
  - destruct (renewalLoop_account events s W) as (s' & W' & Hloop & _). eauto.
  - clear. induction events as [|[|now] rest IH]; cbn.
    + split; [discriminate|tauto].
    + split; auto.
    + rewrite IH. split; [auto|]. intros [H|H]; [discriminate|exact H].
  - intros pre post ->. revert s W.
    induction pre as [|[|now] pre IH]; intros s W; cbn; [reflexivity|reflexivity|].
    unfold bind. destruct (renewalTick s now W) as [[s1 W1]|]; [apply IH|reflexivity].
Qed.

(** X14.  A run of the loop over [n] events sends at most [2 * n] requests
    and prints at most [n] lines: failures are not retried within a tick. *)
Theorem renewalLoop_request_bound s events W :
  exists s' b W',
    renewalLoop s events W = Some ((s', b), W')
    /\ (length (sent W') <= length (sent W) + 2 * length events)%nat
    /\ (length (stdout W') <= length (stdout W) + length events)%nat.
Proof.
  destruct (renewalLoop_account events s W)
    as (s' & W' & Hloop & _ & _ & _ & _ & _ & _ & _ & Hs & Ho).
  exists s', (cancelled events), W'. auto.
Qed.

(** X15.  Renewal, end to end.  When a tick finds the credential due and
    the refresh succeeds, the store holds the credential of the issuance
    response and the success line with its expiry is printed; a following
    tick at which the new credential is not yet due sends nothing and
    leaves the store as it is. *)
Theorem renewal_then_idle s now1 now2 W s' W1 :
  (time_Until (SVIDCache.ExpiresAt (SpiffeSDK.currentSVID s)) now1
   <= Config.RenewalThreshold (SpiffeSDK.config s))%Z ->
  refreshSVID s W = Some ((None, s'), W1) ->
  (Config.RenewalThreshold (SpiffeSDK.config s)
   < time_Until (SVIDCache.ExpiresAt (SpiffeSDK.currentSVID s')) now2)%Z ->
  let W2 := set_stdout
              (app (stdout W1)
                   [("SVID renewed successfully, expires at: %v" ++ nl,
                     [argTime (SVIDCache.ExpiresAt (SpiffeSDK.currentSVID s'))])]) W1 in
  renewalLoop s [tickerC now1; tickerC now2] W = Some ((s', false), W2)
  /\ (exists lookup issue issueResp svid,
        sent W2 = (sent W ++ [lookup; issue])%list
        /\ network W (sent W ++ [lookup])%list issue = Ok issueResp
        /\ json_Decode_SVIDResponse (Response.Body issueResp) = Ok svid
        /\ GetCurrentSVID s' = SVIDResponse.X509SVID svid
        /\ SVIDCache.ExpiresAt (SpiffeSDK.currentSVID s') = SVIDResponse.ExpiresAt svid).
Proof.
  intros Hdue Hrun Hidle W2.
  destruct (refreshSVID_frame _ _ _ _ _ Hrun) as (Hc & _).
  split.
  - cbn [renewalLoop].
    rewrite (bind_Some _ _ _ _ _ (renewalTick_due _ _ _ _ _ _ Hdue Hrun)).
    rewrite <- Hc in Hidle.
    rewrite (bind_Some _ _ _ _ _ (renewalTick_idle _ now2 _ Hidle)).
    reflexivity.
  - destruct (refreshSVID_Ok _ _ _ _ Hrun)
      as (lookup & lookupResp & issue & issueResp & svid & _ & _ & _ & Hn & Hd & -> & ->).
    exists lookup, issue, issueResp, svid. repeat split; assumption.
Qed.

(** ** Outgoing attachment *)

Lemma spiffeMTLSTransport_RoundTrip_eq t req W :
  spiffeMTLSTransport_RoundTrip t req W =
  (r <- loadRequest req ;;
   req' <- Request_Clone req (Request.Context r) ;;
   res <- innerTransport t req' ;;
   ret (res, afterRoundTrip t)) W.
Proof.
  unfold spiffeMTLSTransport_RoundTrip, innerTransport, afterRoundTrip, bind.
  destruct (loadRequest req W) as [[r W1]|]; [|reflexivity].
  destruct (Request_Clone req (Request.Context r) W1) as [[req' W2]|]; [|reflexivity].
  destruct (spiffeMTLSTransport.transport t) as [inner|] eqn:Et; cbn.
  - now rewrite Et.
  - unfold innerTransport. now rewrite Et.
Qed.

Lemma response_RoundTrip t req W :
  response (spiffeMTLSTransport_RoundTrip t req W) =
  (r <- loadRequest req ;;
   req' <- Request_Clone req (Request.Context r) ;;
   innerTransport t req') W.
Proof.
  rewrite spiffeMTLSTransport_RoundTrip_eq. unfold bind, response.
  destruct (loadRequest req W) as [[r W1]|]; [|reflexivity].
  destruct (Request_Clone req (Request.Context r) W1) as [[req' W2]|]; [|reflexivity].
  destruct (innerTransport t req' W2) as [[res W3]|]; reflexivity.
Qed.

(** X16.  The transport that [spiffeMTLSTransport] creates when it was
    given none is created once, from the TLS configuration the SDK has at
    that first call, and kept in the receiver; every later call goes
    through it, whatever TLS configuration the SDK has by then.  With a
    transport given to [OutgoingAttachmentMiddleware], the SDK plays no part
    at all. *)
Theorem spiffeMTLSTransport_keeps_first_transport t req W res t' W' :
  spiffeMTLSTransport_RoundTrip t req W = Some ((res, t'), W') ->
  spiffeMTLSTransport.transport t' = Some (innerTransport t)
  /\ (spiffeMTLSTransport.transport t = None ->
      innerTransport t = http_Transport (SpiffeSDK.tlsConfig (spiffeMTLSTransport.sdk t)))
  /\ (forall sdk2, innerTransport (spiffeMTLSTransport.mk sdk2 (spiffeMTLSTransport.transport t'))
                   = innerTransport t)
  /\ (forall sdk2 req2 W2,
        response (spiffeMTLSTransport_RoundTrip
                    (spiffeMTLSTransport.mk sdk2 (spiffeMTLSTransport.transport t')) req2 W2)
        = response (spiffeMTLSTransport_RoundTrip t req2 W2))
  /\ (forall s1 s2 inner req2 W2,
        response (spiffeMTLSTransport_RoundTrip
                    (OutgoingAttachmentMiddleware s1 (Some inner)) req2 W2)
        = response (spiffeMTLSTransport_RoundTrip
                      (OutgoingAttachmentMiddleware s2 (Some inner)) req2 W2)).
Proof.
  intros Hrun. rewrite spiffeMTLSTransport_RoundTrip_eq in Hrun. unfold bind in Hrun.
  destruct (loadRequest req W) as [[r W1]|]; [|discriminate].
  destruct (Request_Clone req (Request.Context r) W1) as [[req' W2]|]; [|discriminate].
  destruct (innerTransport t req' W2) as [[res0 W3]|]; [|discriminate].
  unfold ret in Hrun. injection Hrun as _ <- _.
  assert (Hkept : spiffeMTLSTransport.transport (afterRoundTrip t) = Some (innerTransport t)).
  { unfold afterRoundTrip, innerTransport.
    destruct (spiffeMTLSTransport.transport t) eqn:Et; [exact Et|reflexivity]. }
  split; [exact Hkept|]. split.
  { intros Hnil. unfold innerTransport. now rewrite Hnil. }
  split.
  { intros sdk2. unfold innerTransport at 1. cbn. now rewrite Hkept. }
  split.
  { intros sdk2 req2 W4. rewrite !response_RoundTrip.
    unfold innerTransport at 1. cbn. now rewrite Hkept. }
  intros s1 s2 inner req2 W4. now rewrite !response_RoundTrip.
Qed.

(** ** The payment service example *)

Lemma IncomingValidationMiddleware_run s next w r W req :
  heap W !! r = Some (ORequest req) ->
  IncomingValidationMiddleware s next w r W =
  match peerCertificate req with
  | None => next w r W
  | Some cert =>
    match ValidateIncomingSVID s (certToPEM s cert) W with
    | Some (Ok result, W1) =>
      if ValidationResult.Valid result then
        next w (length (heap W1))
             (set_heap (heap W1 ++ [ORequest (withIdentity req (ValidationResult.SPIFFEID result))])%list
                       W1)
      else http_Error w "Invalid client certificate" StatusUnauthorized W1
    | Some (Err _, W1) => http_Error w "Invalid client certificate" StatusUnauthorized W1
    | None => None
    end
  end.
Proof.
  intros Hr. unfold IncomingValidationMiddleware.
  rewrite (bind_Some _ _ _ _ _ (loadRequest_Some _ _ _ Hr)).
  destruct (peerCertificate req) as [cert|]; [|reflexivity].
  destruct (VerifyCertificate_runs (SpiffeSDK.headlessAPI s)
              (VerifyPayload.mk (certToPEM s cert)) W) as (res & new & Hv & _).
  unfold ValidateIncomingSVID. rewrite (bind_Some _ _ _ _ _ Hv), Hv.
  destruct res as [result|e]; [|reflexivity].
  destruct (ValidationResult.Valid result); [|reflexivity].
  assert (Hr' : heap (afterSending new W) !! r = Some (ORequest req)) by exact Hr.
  unfold Request_WithContext, bind. cbn [negb].
  rewrite (loadRequest_Some _ _ _ Hr'). reflexivity.
Qed.

(** X17.  [processPaymentHandler] behind [IncomingValidationMiddleware], on
    a request whose context carries no ["spiffe_id"] of its own.  The
    payment is processed in one case only: a peer certificate was presented
    and verified as valid with the identity of the customer service.  A
    request without certificate, which the middleware lets through, is
    answered 403 by the handler; an invalid certificate is answered 401 and
    any other verified identity 403. *)
Theorem payment_only_for_customer_service respond s w r W req :
  heap W !! r = Some (ORequest req) ->
  Context_Value (Request.Context req) "spiffe_id" = None ->
  let protected := IncomingValidationMiddleware s (processPaymentHandler respond s) in
  let customer := "spiffe://authsec.dev/customer-service" in
  (peerCertificate req = None ->
   protected w r W = http_Error w "Unauthorized caller" 403%Z W)
  /\ forall cert,
       peerCertificate req = Some cert ->
       exists res new,
         ValidateIncomingSVID s (certToPEM s cert) W = Some (res, afterSending new W)
         /\ let W2 := set_heap
                        (heap W ++ [ORequest (withIdentity req (verifiedIdentity res))])%list
                        (afterSending new W) in
            (accepted res = false ->
             protected w r W =
             http_Error w "Invalid client certificate" StatusUnauthorized (afterSending new W))
            /\ (accepted res = true -> verifiedIdentity res <> customer ->
                protected w r W = http_Error w "Unauthorized caller" 403%Z W2)
            /\ (accepted res = true -> verifiedIdentity res = customer ->
                protected w r W = respond w (Some customer) W2).
Proof.
  intros Hr Hctx protected customer. subst protected.
  split.
  - intros Hnone. rewrite (IncomingValidationMiddleware_run _ _ _ _ _ _ Hr), Hnone.
    unfold processPaymentHandler.
    rewrite (bind_Some _ _ _ _ _ (loadRequest_Some _ _ _ Hr)), Hctx. reflexivity.
  - intros cert Hcert.
    destruct (VerifyCertificate_runs (SpiffeSDK.headlessAPI s)
                (VerifyPayload.mk (certToPEM s cert)) W) as (res & new & Hv & _).
    exists res, new. split; [exact Hv|]. cbv zeta.
    rewrite (IncomingValidationMiddleware_run _ _ _ _ _ _ Hr), Hcert.
    unfold ValidateIncomingSVID. rewrite Hv.
    assert (Hhandler : forall id,
      processPaymentHandler respond s w (length (heap W))
        (set_heap (heap W ++ [ORequest (withIdentity req id)])%list (afterSending new W)) =
      (if negb (String.eqb id customer)
       then http_Error w "Unauthorized caller" 403%Z
       else respond w (Some id))
        (set_heap (heap W ++ [ORequest (withIdentity req id)])%list (afterSending new W))).
    { intros id. unfold processPaymentHandler.
      erewrite bind_Some; [|apply loadRequest_Some; cbn; apply lookup_new0].
      cbn. reflexivity. }
    destruct res as [result|e]; cbn [accepted verifiedIdentity].
    + destruct (ValidationResult.Valid result).
      * repeat split; try discriminate.
        -- intros _ Hne. change (heap (afterSending new W)) with (heap W).
           rewrite Hhandler. apply String.eqb_neq in Hne. now rewrite Hne.
        -- intros _ Heq. change (heap (afterSending new W)) with (heap W).
           rewrite Hhandler, Heq. now rewrite String.eqb_refl.
      * repeat split; try discriminate; reflexivity.
    + repeat split; try discriminate; reflexivity.
Qed.

End MoreProperties.

(** * The further properties on the demo service *)

Section MoreOnTheDemoService.
Existing Instance Demo.runtime.

Ltac no_such_byte :=
  let a := fresh "a" in
  let b := fresh "b" in
  let H := fresh "H" in
  intros (a & b & H);
  repeat (destruct a as [|? a]; simpl in H; [discriminate H|injection H as _ H]);
  destruct a; discriminate H.

Lemma smartTransport_RoundTrip_covers_demo :
  let t := NewInternalHTTPClient Demo.sdk [".svc.cluster.local"; "authsec"] in
  let W := Demo.world Demo.healthy Demo.outbound in
  heap W !! 0 = Some (ORequest (Request.mk "GET" (Some 1) (Some 2) None "" None
                                           context_Background))
  /\ heap W !! 1 = Some (OURL (URL.mk "https" "payment-service.authsec" "/pay" ""))
  /\ ruleCovers "payment-service.authsec" "authsec"
  /\ smartTransport_RoundTrip t 0 W = smartTransport.mtlsTransport t 0 W.
Proof.
  cbv zeta.
  assert (Hc : ruleCovers "payment-service.authsec" "authsec").
  { right. right. split; [simpl; lia|]. split.
    - intros [rest H]. discriminate H.
    - now exists "payment-service". }
  split; [reflexivity|]. split; [reflexivity|]. split; [exact Hc|].
  destruct (smartTransport_RoundTrip_covers
              (NewInternalHTTPClient Demo.sdk [".svc.cluster.local"; "authsec"])
              0 _ 1 _ (Demo.world Demo.healthy Demo.outbound)
              eq_refl eq_refl eq_refl) as (Hsome & _).
  apply Hsome. apply Exists_cons_tl. apply Exists_cons_hd. exact Hc.
Defined.

Lemma smartTransport_RoundTrip_same_rules_demo :
  let t := NewInternalHTTPClient Demo.sdk [] in
  let W := Demo.world Demo.healthy Demo.outbound in
  (forall d, In d [".svc.cluster.local"; "authsec"]
             <-> In d ["authsec"; ".svc.cluster.local"; "authsec"])
  /\ smartTransport_RoundTrip (withDomains t [".svc.cluster.local"; "authsec"]) 0 W =
     smartTransport_RoundTrip
       (withDomains t ["authsec"; ".svc.cluster.local"; "authsec"]) 0 W.
Proof.
  cbv zeta.
  assert (Hsame : forall d, In d [".svc.cluster.local"; "authsec"]
                            <-> In d ["authsec"; ".svc.cluster.local"; "authsec"])
    by (intros d; simpl; tauto).
  split; [exact Hsame|].
  exact (smartTransport_RoundTrip_same_rules (NewInternalHTTPClient Demo.sdk []) _ _ 0
           (Demo.world Demo.healthy Demo.outbound) Hsame).
Defined.

(** The URL of the customer service example,
    [https://payment-service.authsec.svc.cluster.local:8080/process], is
    routed to the regular transport by the rules of the design document. *)
Lemma smartTransport_RoundTrip_port_demo :
  let t := NewInternalHTTPClient Demo.sdk [".svc.cluster.local"; "authsec"] in
  let W := Demo.world Demo.healthy Scenario.outboundWithPort in
  heap W !! 0 = Some (ORequest (Request.mk "GET" (Some 1) (Some 2) None "" None
                                           context_Background))
  /\ heap W !! 1 =
     Some (OURL (URL.mk "https" "payment-service.authsec.svc.cluster.local:8080"
                        "/process" ""))
  /\ ~ hasByte "." "8080"
  /\ Forall (fun d => ~ hasByte ":" d) [".svc.cluster.local"; "authsec"]
  /\ smartTransport_RoundTrip t 0 W = smartTransport.regularTransport t 0 W.
Proof.
  cbv zeta.
  assert (Hport : ~ hasByte "." "8080") by no_such_byte.
  assert (Hrules : Forall (fun d => ~ hasByte ":" d) [".svc.cluster.local"; "authsec"]).
  { repeat constructor; no_such_byte. }
  split; [reflexivity|]. split; [reflexivity|]. split; [exact Hport|].
  split; [exact Hrules|].
  exact (smartTransport_RoundTrip_port
           (NewInternalHTTPClient Demo.sdk [".svc.cluster.local"; "authsec"])
           0 _ 1 _ (Demo.world Demo.healthy Scenario.outboundWithPort)
           "payment-service.authsec.svc.cluster.local" "8080"
           eq_refl eq_refl eq_refl eq_refl Hport Hrules).
Defined.

Lemma refreshSVID_no_workload_demo :
  let W := Demo.world Scenario.unregistered [] in
  exists lookup resp workloadResp,
    http_NewRequest "GET"
      (HeadlessAPI.BaseURL (SpiffeSDK.headlessAPI Demo.sdk)
         ++ "/spiresvc/api/v1/workloads?spiffe_id="
         ++ Config.SPIFFEID (SpiffeSDK.config Demo.sdk))
      None = Ok lookup
    /\ network W (sent W) lookup = Ok resp
    /\ Response.StatusCode resp = StatusOK
    /\ json_Decode_WorkloadResp (Response.Body resp) = Ok workloadResp
    /\ WorkloadResp.Workloads workloadResp = []
    /\ refreshSVID Demo.sdk W =
       Some ((Some (Errorf "workload not found for SPIFFE ID: %s"
                           [argString "spiffe://authsec.dev/test-customer-service"]),
              Demo.sdk),
             afterSending [lookup] W).
Proof.
  cbv zeta. eexists _, _, _.
  split; [reflexivity|]. split; [reflexivity|]. split; [reflexivity|].
  split; [reflexivity|]. split; [reflexivity|].
  exact (proj1 (refreshSVID_no_workload Demo.sdk (Demo.world Scenario.unregistered [])
                  _ _ _ eq_refl eq_refl eq_refl eq_refl eq_refl)).
Defined.

Lemma Initialize_success_requests_demo :
  let W := Demo.world Demo.healthy [] in
  exists s' W' register lookup issue,
    Initialize Demo.sdk W = Some ((None, s', true), W')
    /\ sent W' = [register; lookup; issue]
    /\ Outbound.Method register = "POST"
    /\ Outbound.Method lookup = "GET"
    /\ Outbound.Method issue = "POST".
Proof.
  cbv zeta.
  assert (Hrun : exists s' W',
             Initialize Demo.sdk (Demo.world Demo.healthy []) = Some ((None, s', true), W'))
    by (eexists _, _; vm_compute; reflexivity).
  destruct Hrun as (s' & W' & Hrun).
  destruct (Initialize_success_requests _ _ _ _ _ Hrun)
    as (register & lookup & issue & issueResp & svid & Hsent & Hr & Hl & Hi & _).
  exists s', W', register, lookup, issue. auto.
Defined.

Lemma headless_only_has_no_TLS_config_demo :
  let W := Demo.world Demo.healthy [] in
  agentDown W
  /\ exists sdk W1 s' W',
       NewSpiffeSDK Demo.config W = Some (Ok sdk, W1)
       /\ Initialize sdk W1 = Some ((None, s', true), W')
       /\ SpiffeSDK.tlsConfig s' = None
       /\ smartTransport.mtlsTransport (NewInternalHTTPClient s' [".svc.cluster.local"])
          = http_Transport None.
Proof.
  cbv zeta.
  assert (Hdown : agentDown (Demo.world Demo.healthy []))
    by (intros n addr; eexists; reflexivity).
  split; [exact Hdown|].
  destruct (headless_only_has_no_TLS_config Demo.config _ Hdown)
    as (sdk & W1 & Hnew & _ & Hinit).
  assert (Hsdk : sdk = Demo.sdk /\ W1 = set_agentCalls 1 (Demo.world Demo.healthy [])).
  { vm_compute in Hnew. injection Hnew as <- <-. split; reflexivity. }
  destruct Hsdk as [-> ->].
  assert (Hrun : exists s' W',
             Initialize Demo.sdk (set_agentCalls 1 (Demo.world Demo.healthy []))
             = Some ((None, s', true), W'))
    by (eexists _, _; vm_compute; reflexivity).
  destruct Hrun as (s' & W' & Hrun).
  destruct (Hinit _ _ _ _ Hrun) as (_ & Ht & _ & Hm).
  exists Demo.sdk, (set_agentCalls 1 (Demo.world Demo.healthy [])), s', W'.
  split; [exact Hnew|]. split; [exact Hrun|]. split; [exact Ht|apply Hm].
Defined.

Lemma Initialize_with_source_demo :
  let W := Scenario.withAgent (Demo.world Demo.healthy []) in
  exists s' W',
    SpiffeSDK.workloadAPI Scenario.sdkWithSource = Some (x509Source 1)
    /\ Initialize Scenario.sdkWithSource W = Some ((None, s', true), W')
    /\ SpiffeSDK.tlsConfig s' =
       Some (MTLSClientConfig (Some (x509Source 1)) (Some (x509Source 1)))
    /\ agentCalls W' = 0.
Proof.
  cbv zeta.
  assert (Hrun : exists s' W',
             Initialize Scenario.sdkWithSource
               (Scenario.withAgent (Demo.world Demo.healthy []))
             = Some ((None, s', true), W'))
    by (eexists _, _; vm_compute; reflexivity).
  destruct Hrun as (s' & W' & Hrun).
  destruct (Initialize_with_source Scenario.sdkWithSource (x509Source 1) _ _ _ _
              eq_refl Hrun) as (Ht & _ & Ha).
  exists s', W'. split; [reflexivity|]. split; [exact Hrun|]. split; [exact Ht|exact Ha].
Defined.

Lemma unset_CheckInterval_panics_demo :
  let W := Demo.world Demo.healthy [] in
  exists s' W',
    (Config.CheckInterval (SpiffeSDK.config Scenario.sdkUnset) <= 0)%Z
    /\ Initialize Scenario.sdkUnset W = Some ((None, s', true), W')
    /\ startAutoRenewal s' [tickerC 1000%Z; ctxDone] W' = None.
Proof.
  cbv zeta.
  assert (Hle : (Config.CheckInterval (SpiffeSDK.config Scenario.sdkUnset) <= 0)%Z)
    by (vm_compute; discriminate).
  assert (Hrun : exists s' W',
             Initialize Scenario.sdkUnset (Demo.world Demo.healthy [])
             = Some ((None, s', true), W'))
    by (eexists _, _; vm_compute; reflexivity).
  destruct Hrun as (s' & W' & Hrun).
  exists s', W'. split; [exact Hle|]. split; [exact Hrun|].
  exact (unset_CheckInterval_panics _ _ _ _ _ _ Hle Hrun).
Defined.

Lemma renewal_then_idle_demo :
  let W := Demo.world Demo.healthy [] in
  exists s' W1 W2,
    (time_Until (SVIDCache.ExpiresAt (SpiffeSDK.currentSVID Demo.sdk)) 1000
     <= Config.RenewalThreshold (SpiffeSDK.config Demo.sdk))%Z
    /\ refreshSVID Demo.sdk W = Some ((None, s'), W1)
    /\ (Config.RenewalThreshold (SpiffeSDK.config Demo.sdk)
        < time_Until (SVIDCache.ExpiresAt (SpiffeSDK.currentSVID s')) 2000)%Z
    /\ renewalLoop Demo.sdk [tickerC 1000%Z; tickerC 2000%Z] W = Some ((s', false), W2)
    /\ GetCurrentSVID s' = "cert".
Proof.
  cbv zeta. eexists _, _, _.
  assert (Hdue : (time_Until (SVIDCache.ExpiresAt (SpiffeSDK.currentSVID Demo.sdk)) 1000
                  <= Config.RenewalThreshold (SpiffeSDK.config Demo.sdk))%Z)
    by (vm_compute; discriminate).
  split; [exact Hdue|].
  split; [vm_compute; reflexivity|].
  match goal with
  | |- (?a < ?b)%Z /\ _ => assert (Hidle : (a < b)%Z) by (vm_compute; reflexivity)
  end.
  split; [exact Hidle|].
  split; [|reflexivity].
  exact (proj1 (renewal_then_idle Demo.sdk 1000%Z 2000%Z (Demo.world Demo.healthy [])
                  _ _ Hdue eq_refl Hidle)).
Defined.

Lemma spiffeMTLSTransport_keeps_first_transport_demo :
  let t := OutgoingAttachmentMiddleware Demo.sdk None in
  let W := Demo.world Demo.healthy Demo.outbound in
  exists res t' W',
    spiffeMTLSTransport_RoundTrip t 0 W = Some ((res, t'), W')
    /\ spiffeMTLSTransport.transport t' = Some (http_Transport None)
    /\ innerTransport
         (spiffeMTLSTransport.mk Scenario.sdkWithSource (spiffeMTLSTransport.transport t'))
       = http_Transport None.
Proof.
  cbv zeta.
  assert (Hrun : exists res t' W',
             spiffeMTLSTransport_RoundTrip (OutgoingAttachmentMiddleware Demo.sdk None) 0
               (Demo.world Demo.healthy Demo.outbound) = Some ((res, t'), W'))
    by (eexists _, _, _; vm_compute; reflexivity).
  destruct Hrun as (res & t' & W' & Hrun).
  destruct (spiffeMTLSTransport_keeps_first_transport _ _ _ _ _ _ Hrun)
    as (Hkept & Hfirst & Hlater & _).
  exists res, t', W'. split; [exact Hrun|].
  split; [rewrite Hkept, (Hfirst eq_refl); reflexivity|].
  rewrite Hlater. exact (Hfirst eq_refl).
Defined.

Lemma payment_only_for_customer_service_demo :
  let req := Demo.inbound None in
  let W := Demo.world Demo.healthy [ORequest req] in
  heap W !! 0 = Some (ORequest req)
  /\ Context_Value (Request.Context req) "spiffe_id" = None
  /\ IncomingValidationMiddleware Demo.sdk
       (processPaymentHandler Scenario.respond Demo.sdk) 7 0 W
     = http_Error 7 "Unauthorized caller" 403%Z W.
Proof.
  cbv zeta. split; [reflexivity|]. split; [reflexivity|].
  exact (proj1 (payment_only_for_customer_service Scenario.respond Demo.sdk 7 0
                  (Demo.world Demo.healthy [ORequest (Demo.inbound None)])
                  _ eq_refl eq_refl) eq_refl).
Defined.

End MoreOnTheDemoService.

(** * The validity window under a lenient decoder *)

Section OnTheLenientDecoder.

Existing Instance Demo.lenient.

(** The URL of an issuance request ends in [/svid], whatever the base URL
    and the workload ID, and so not in [/register-and-issue]. *)
Lemma issuance_path base workloadID :
  let url := base ++ "/spiresvc/api/v1/workloads/" ++ workloadID ++ "/svid" in
  hasSuffix url "/register-and-issue" = false /\ hasSuffix url "/svid" = true.
Proof.
  cbv zeta.
  assert (Hq : base ++ "/spiresvc/api/v1/workloads/" ++ workloadID ++ "/svid"
               = (base ++ "/spiresvc/api/v1/workloads/" ++ workloadID) ++ "/svid")
    by now rewrite !string_app_assoc.
  split.
  - destruct (hasSuffix _ "/register-and-issue") eqn:H; [|reflexivity].
    apply hasSuffix_iff in H. destruct H as [p Hp]. rewrite Hq in Hp.
    destruct (string_app_eq_app _ _ _ _ Hp) as [(x & _ & Hx)|(x & _ & Hx)].
    + apply (f_equal String.length) in Hx. rewrite string_length_append in Hx.
      simpl in Hx. lia.
    + assert (Hs : hasSuffix "/register-and-issue" "/svid" = true)
        by (apply hasSuffix_iff; exists x; exact Hx).
      vm_compute in Hs. discriminate.
  - apply hasSuffix_iff. eexists. exact Hq.
Qed.

(** The healthy service answers an issuance request with a credential whose
    window is ordered.  Its answer to the lookup decodes, under the lenient
    decoder, to the zero-valued response. *)
Lemma healthy_orderedResponses base h : orderedResponses base (Demo.world Demo.healthy h).
Proof.
  intros hist workloadID issue resp svid Hq Hn Hst Hd.
  cbv beta match delta [http_NewRequest url_Parse Demo.lenient Demo.parse] in Hq.
  destruct (String.eqb _ "") in Hq; [discriminate|]. injection Hq as <-.
  cbv beta match zeta delta [Demo.world Demo.healthy Demo.service network
                               Outbound.URL URL.Path] in Hn.
  destruct (issuance_path base workloadID) as [H1 H2]. cbv zeta in H1, H2.
  match type of Hn with
  | context [hasSuffix ?url "/svid"] =>
    change url with (base ++ "/spiresvc/api/v1/workloads/" ++ workloadID ++ "/svid") in Hn
  end.
  rewrite H1, H2 in Hn. injection Hn as <-.
  vm_compute in Hd. injection Hd as <-. vm_compute. reflexivity.
Qed.


End OnTheLenientDecoder.
